(** * Agent collaboration platform: broker, analyst step and driver loop

    A shallow embedding of the services of the platform.  Three carry the
    message exchange:

    - [broker_service.py]: the in-memory mailbox store ([QUEUES], a
      [defaultdict(deque)]) with its [broker_send], [broker_poll] and
      [broker_size] handlers;
    - [analyst_service.py]: the step [pull_process_and_reply] with its
      debugging [INBOX];
    - [frontend_service.py]: the waiting loop and the report of
      [run_pipeline].

    Further down come the registry ([mcp_registry.py]) and the researcher
    ([researcher_service.py]).

    The services talk over HTTP; here they share one world state and every
    remote call is a function on that state.  What the outside decides (the
    document store, the text generation call, whether a peer is reachable,
    how long a call takes) is an explicit environment argument.

    [analyst_service.py] as it stands is not a Python program: line 91 has
    the words of a shell command inside the argument list of the call in
    [call_groq], so the file does not compile and the analyst service does
    not start.  Module [Shipped] embeds that.  Module [Analyst] embeds the
    text of the handlers with those words of line 91 left out, that is, what
    the handlers say they do; nothing in it is a statement about the service
    as it stands.  For the driver the service as it stands is an analyst
    that is never up. *)

From Stdlib Require Import ZArith Ascii.
From Stdlib Require PrimFloat.
From stdpp Require Import gmap strings list fin_maps.

Local Open Scope string_scope.
Local Open Scope list_scope.
Local Set Warnings "-register-all".

(** ** Data model *)

(** The values a [Dict[str, Any]] payload can hold once it has travelled as
    JSON.  A number is an [int] or a [float] (a binary64, as Python reads
    it). *)
Inductive json : Type :=
  | JNull
  | JBool (b : bool)
  | JInt (z : Z)
  | JFloat (f : PrimFloat.float)
  | JStr (s : string)
  | JList (l : list json)
  | JDict (d : list (string * json)).

(** Python truthiness of a JSON value, as [if not pointer] reads it. *)
Definition truthy (v : json) : bool :=
  match v with
  | JNull => false
  | JBool b => b
  | JInt z => negb (z =? 0)%Z
  | JFloat f => negb (PrimFloat.eqb f PrimFloat.zero)
  | JStr s => negb (String.eqb s EmptyString)
  | JList l => match l with [] => false | _ :: _ => true end
  | JDict d => match d with [] => false | _ :: _ => true end
  end.

(** [class A2AMessage(BaseModel)]: the envelope, the same five fields in the
    three services. *)
Record A2AMessage : Type := mkMsg {
  sender : string;
  receiver : string;
  type : string;
  payload : gmap string json;
  conv_id : string
}.

(** ** The broker ([broker_service.py]) *)
Module Broker.

(** [QUEUES: Dict[str, deque] = defaultdict(deque)].  A deque is the list
    of its elements, head first. *)
Abbreviation Queues := (gmap string (list A2AMessage)).

(** [QUEUES[k]] on a [defaultdict(deque)]: a missing key is first bound to
    a new empty deque, and the lookup returns that one. *)
Definition getitem (k : string) (q : Queues) : list A2AMessage * Queues :=
  match q !! k with
  | Some d => (d, q)
  | None => ([], <[k := []]> q)
  end.

(** What a mailbox holds, a name never seen reading as an empty one.  This
    is the state the three handlers can observe. *)
Definition mailbox (q : Queues) (k : string) : list A2AMessage :=
  default [] (q !! k).

Record SendResp : Type := mkSendResp {
  sr_status : string;
  sr_receiver : string;
  sr_size : nat
}.

Inductive PollResp : Type :=
  | PollEmpty
  | PollOk (message : A2AMessage).

Record SizeResp : Type := mkSizeResp {
  sz_agent : string;
  sz_size : nat
}.

(** [broker_send]: [QUEUES[msg.receiver].append(msg.dict())], then the
    answer with [len(QUEUES[msg.receiver])].  The second subscript finds
    the key bound, so it only reads. *)
Definition broker_send (msg : A2AMessage) (q : Queues) : SendResp * Queues :=
  let '(d, q1) := getitem (receiver msg) q in
  let q2 := <[receiver msg := d ++ [msg]]> q1 in
  ({| sr_status := "enqueued";
      sr_receiver := receiver msg;
      sr_size := length (mailbox q2 (receiver msg)) |}, q2).

(** [broker_poll]: [if not QUEUES[agent]: return empty], otherwise
    [QUEUES[agent].popleft()].  The guard has bound the key, so the
    subscript before [popleft] reads the deque the guard saw. *)
Definition broker_poll (agent : string) (q : Queues) : PollResp * Queues :=
  let '(d, q1) := getitem agent q in
  match d with
  | [] => (PollEmpty, q1)
  | m :: rest => (PollOk m, <[agent := rest]> q1)
  end.

(** [broker_size]: [len(QUEUES[agent])]. *)
Definition broker_size (agent : string) (q : Queues) : SizeResp * Queues :=
  let '(d, q1) := getitem agent q in
  ({| sz_agent := agent; sz_size := length d |}, q1).

(** Requests to the broker, and a run of them one after the other. *)
Inductive request : Type :=
  | Send (msg : A2AMessage)
  | Poll (agent : string)
  | Size (agent : string).

Inductive response : Type :=
  | Sent (r : SendResp)
  | Polled (r : PollResp)
  | Sized (r : SizeResp).

Definition target (rq : request) : string :=
  match rq with
  | Send msg => receiver msg
  | Poll agent => agent
  | Size agent => agent
  end.

Definition handle (rq : request) (q : Queues) : response * Queues :=
  match rq with
  | Send msg => let '(r, q') := broker_send msg q in (Sent r, q')
  | Poll agent => let '(r, q') := broker_poll agent q in (Polled r, q')
  | Size agent => let '(r, q') := broker_size agent q in (Sized r, q')
  end.

Fixpoint serve (rqs : list request) (q : Queues) : list response * Queues :=
  match rqs with
  | [] => ([], q)
  | rq :: rest =>
      let '(r, q1) := handle rq q in
      let '(rs, q2) := serve rest q1 in
      (r :: rs, q2)
  end.

(** [n] polls of the same agent in a row. *)
Fixpoint poll_n (n : nat) (agent : string) (q : Queues) : list PollResp * Queues :=
  match n with
  | O => ([], q)
  | S n' =>
      let '(r, q1) := broker_poll agent q in
      let '(rs, q2) := poll_n n' agent q1 in
      (r :: rs, q2)
  end.

(** The envelopes of a list sent in order. *)
Definition send_all (msgs : list A2AMessage) (q : Queues) : Queues :=
  foldl (fun acc m => snd (broker_send m acc)) q msgs.

(** Two stores whose mailboxes hold the same envelopes. *)
Definition same_mailboxes (q1 q2 : Queues) : Prop :=
  forall k, mailbox q1 k = mailbox q2 k.

End Broker.


(** ** The analyst step ([analyst_service.py]) *)
Module Analyst.
Import Broker.

(** What one invocation finds outside the service.  A call to the broker
    that fails is taken to fail before the broker acts on it; an answer lost
    after the broker has popped or enqueued is not among these
    environments. *)
Record Env : Type := mkEnv {
  (** [requests.get(BROKER_URL/broker/poll/Analyst)] and its
      [raise_for_status] go through *)
  poll_reachable : bool;
  (** what [requests.get(MCP_BASE/resources/fetch/<text>)] and
      [resource["data"]] yield for a text pasted into the URL as it is;
      [None] when one of them raises.  What the registry makes of the text
      is the business of the URL and of the registry, and is not fixed
      here *)
  mcp_fetch : string -> option string;
  (** [groq_client]: [None] when no key is set; otherwise the completion
      call, system and user prompt to stripped content, [None] when it
      raises *)
  groq_client : option (string -> string -> option string);
  (** [requests.post(BROKER_URL/broker/send)] and its [raise_for_status]
      go through *)
  send_reachable : bool
}.

(** The broker the step talks to, and the module-level [INBOX]. *)
Record State : Type := mkState {
  queues : Queues;
  INBOX : list A2AMessage
}.

Inductive failure : Type :=
  | PollFailed
  | FetchFailed
  | AnalysisFailed
  | SendFailed.

(** What the handler returns: status [no-messages]; status [ignored] with
    reason [no pointer]; [reply_enqueued] with the reply; or the exception
    that ends it. *)
Inductive Outcome : Type :=
  | NoMessages
  | Ignored
  | ReplyEnqueued (reply : A2AMessage)
  | Raised (f : failure).

(** [pointer.split("/")[-1]]: what follows the last slash. *)
Fixpoint last_segment (acc s : string) : string :=
  match s with
  | EmptyString => acc
  | String c s' =>
      if Ascii.eqb c "/"%char then last_segment EmptyString s'
      else last_segment (acc +:+ String c EmptyString) s'
  end.

(** [mcp_get(pointer)] followed by [resource["data"]].  Only a string has
    [split]; any other value raises.  The last segment goes into the URL of
    the request as it is. *)
Definition mcp_get (env : Env) (pointer : json) : option string :=
  match pointer with
  | JStr p => mcp_fetch env (last_segment EmptyString p)
  | _ => None
  end.

Definition canned_response : string :=
  "⚠️ GROQ_API_KEY not set — returning canned response.".

(** [call_groq(system, user)], the words [pip install fastapi uvicorn groq
    requests python-dotenv] of line 91 left out: with them the call is no
    Python. *)
Definition call_groq (env : Env) (system user : string) : option string :=
  match groq_client env with
  | None => Some canned_response
  | Some chat => chat system user
  end.

Definition system_prompt : string :=
  "You analyze business notes, verify claims, extract KPIs, and write concise summaries.".

Definition nl : string := String (Ascii.ascii_of_nat 10) EmptyString.
Definition quotes3 : string :=
  let q := Ascii.ascii_of_nat 34 in String q (String q (String q EmptyString)).

(** The f-string of the user prompt around [doc_text]. *)
Definition user_prompt (doc_text : string) : string :=
  nl +:+ "Document:" +:+ nl +:+ quotes3 +:+ doc_text +:+ quotes3 +:+ nl
  +:+ nl +:+ nl +:+ "Tasks:" +:+ nl
  +:+ "1) Extract KPIs (YoY growth, drivers, risks) in bullet points." +:+ nl
  +:+ "2) Write a neutral ~120-word summary for an exec note." +:+ nl
  +:+ "3) Keep numeric ranges as stated (no hallucination)." +:+ nl
  +:+ "4) Return JSON with keys: kpis (list of bullets), summary (string)." +:+ nl.

(** [not pointer] for the result of [payload.get("pointer")]. *)
Definition py_not (v : option json) : bool :=
  match v with
  | None => true
  | Some x => negb (truthy x)
  end.

(** The text of [pull_process_and_reply]: what the handler does once the
    module loads, which as the file stands it does not (see [Shipped]).
    State changes made before an exception stay: the poll has popped the
    envelope and [INBOX] has grown. *)
Definition pull_process_and_reply (env : Env) (st : State) : Outcome * State :=
  if negb (poll_reachable env) then (Raised PollFailed, st) else
  let '(data, q1) := broker_poll "Analyst" (queues st) in
  match data with
  | PollEmpty => (NoMessages, mkState q1 (INBOX st))
  | PollOk msg =>
      let inbox1 := INBOX st ++ [msg] in
      let pointer := payload msg !! "pointer" in
      if py_not pointer then (Ignored, mkState q1 inbox1) else
      let p := default JNull pointer in
      match mcp_get env p with
      | None => (Raised FetchFailed, mkState q1 inbox1)
      | Some doc_text =>
          match call_groq env system_prompt (user_prompt doc_text) with
          | None => (Raised AnalysisFailed, mkState q1 inbox1)
          | Some analysis =>
              let reply :=
                {| sender := "Analyst";
                   receiver := "Researcher";
                   type := "confirm";
                   payload := {[ "analysis" := JStr analysis;
                                 "source_pointer" := p ]};
                   conv_id := conv_id msg |} in
              if send_reachable env
              then (ReplyEnqueued reply,
                    mkState (snd (broker_send reply q1)) inbox1)
              else (Raised SendFailed, mkState q1 inbox1)
          end
      end
  end.

(** [GET /inbox]. *)
Definition inbox (st : State) : list A2AMessage := INBOX st.

(** [DELETE /inbox/clear]. *)
Definition inbox_clear (st : State) : State := mkState (queues st) [].

End Analyst.

(** ** The driver ([run_pipeline] of [frontend_service.py]) *)
Module Frontend.
Import Broker.

(** The [25.0] of [deadline = start + 25.0] and the [1.0] of
    [time.sleep(1.0)].  Clock readings and durations are whole
    milliseconds. *)
Definition WAIT_MS : N := 25000.
Definition SLEEP_MS : N := 1000.

(** What one round of the waiting loop finds outside the driver.  A call
    that fails is one that does not reach its peer. *)
Record RoundEnv : Type := mkRoundEnv {
  (** requests other agents made to the broker since the last round *)
  others : list request;
  (** the POST to the analyst service reaches it and its handler runs;
      [false] when no analyst service is running, as with
      [analyst_service.py] as it stands *)
  analyst_up : bool;
  analyst_env : Analyst.Env;
  (** time the trigger call takes, answered or not *)
  trigger_ms : N;
  (** the GET to the broker reaches it *)
  poll_up : bool;
  (** time the poll call takes, answered or not *)
  poll_ms : N
}.

(** The broker, the analyst's inbox and the wall clock. *)
Record World : Type := mkWorld {
  broker_queues : Queues;
  analyst_inbox : list A2AMessage;
  now : N
}.

(** The dictionary [polled] of the loop: the broker's answer, or the
    substitute for an exception. *)
Inductive polled : Type :=
  | StatusOk (m : A2AMessage)
  | StatusEmpty
  | StatusError.

(** [analyst_process_once()]: [None] stands for an exception. *)
Definition analyst_process_once (e : RoundEnv) (w : World)
  : option Analyst.Outcome * World :=
  if analyst_up e then
    let '(out, st) :=
      Analyst.pull_process_and_reply (analyst_env e)
        (Analyst.mkState (broker_queues w) (analyst_inbox w)) in
    (match out with Analyst.Raised _ => None | _ => Some out end,
     mkWorld (Analyst.queues st) (Analyst.INBOX st) (now w + trigger_ms e))
  else (None, mkWorld (broker_queues w) (analyst_inbox w) (now w + trigger_ms e)).

(** The helper [broker_poll(agent)] of the frontend, with the
    [except Exception] of its call site. *)
Definition broker_poll (e : RoundEnv) (agent : string) (w : World)
  : polled * World :=
  if poll_up e then
    let '(r, q) := Broker.broker_poll agent (broker_queues w) in
    (match r with PollOk m => StatusOk m | PollEmpty => StatusEmpty end,
     mkWorld q (analyst_inbox w) (now w + poll_ms e))
  else (StatusError, mkWorld (broker_queues w) (analyst_inbox w) (now w + poll_ms e)).

(** [time.sleep(1.0)]. *)
Definition sleep (w : World) : World :=
  mkWorld (broker_queues w) (analyst_inbox w) (now w + SLEEP_MS).

(** The other agents' requests reach the broker. *)
Definition interfere (e : RoundEnv) (w : World) : World :=
  mkWorld (snd (serve (others e) (broker_queues w))) (analyst_inbox w) (now w).

(** The variables of the loop. *)
Record Loop : Type := mkLoop {
  reply_msg : option A2AMessage;
  attempts : nat;
  stray_msgs : list A2AMessage
}.

(** The world the driver's poll meets in a round: the other agents'
    requests served, the analyst triggered, its exception swallowed. *)
Definition pre_poll (e : RoundEnv) (w : World) : World :=
  snd (analyst_process_once e (interfere e w)).

(** One pass through the body of [while time.time() < deadline]; the
    boolean says whether the pass ended in [break].  A polled envelope is a
    dictionary of five keys, so [m and ...] comes down to the comparison of
    the conversation ids. *)
Definition round (e : RoundEnv) (conv : string) (l : Loop) (w : World)
  : bool * Loop * World :=
  let attempts1 := S (attempts l) in
  let w1 := pre_poll e w in
  let '(p, w2) := broker_poll e "Researcher" w1 in
  match p with
  | StatusOk m =>
      if String.eqb (conv_id m) conv
      then (true, mkLoop (Some m) attempts1 (stray_msgs l), w2)
      else (false, mkLoop (reply_msg l) attempts1 (stray_msgs l ++ [m]),
            sleep w2)
  | _ => (false, mkLoop (reply_msg l) attempts1 (stray_msgs l), sleep w2)
  end.

(** The loop.  The round with [attempts = n] before it meets [env n].
    [fuel] bounds the passes; [None] is fuel run out. *)
Fixpoint wait_loop (fuel : nat) (env : nat -> RoundEnv) (conv : string)
    (deadline : N) (l : Loop) (w : World) : option (Loop * World) :=
  match fuel with
  | O => None
  | S fuel' =>
      if (now w <? deadline)%N then
        let '(brk, l', w') := round (env (attempts l)) conv l w in
        if brk then Some (l', w')
        else wait_loop fuel' env conv deadline l' w'
      else Some (l, w)
  end.

(** Passes enough for a wait of [WAIT_MS] with a sleep of [SLEEP_MS]
    after each pass. *)
Definition enough_fuel : nat := 26.

(** The world after a pass that did not end in [break]. *)
Definition after_round (e : RoundEnv) (w : World) : World :=
  sleep (snd (broker_poll e "Researcher" (pre_poll e w))).

(** The world [n] passes after [w], none of them ending in [break], [w]
    being met by [env k]. *)
Fixpoint world_at (env : nat -> RoundEnv) (k n : nat) (w : World) : World :=
  match n with
  | O => w
  | S n' => world_at env (S k) n' (after_round (env k) w)
  end.

(** No envelope of conversation [conv] is in the driver's mailbox at any
    of its polls, from the pass met by [env k] on. *)
Definition never_appears (env : nat -> RoundEnv) (conv : string) (k : nat)
    (w : World) : Prop :=
  forall n,
    Forall (fun m => conv_id m <> conv)
      (mailbox (broker_queues (pre_poll (env (k + n)) (world_at env k n w)))
         "Researcher").

(** Wall-clock time one pass takes: the two calls and the sleep. *)
Definition cost (e : RoundEnv) : N := trigger_ms e + poll_ms e + SLEEP_MS.

(** The envelopes the driver's polls pop from the broker, pass by pass,
    up to the end of the loop. *)
Fixpoint driver_polls (fuel : nat) (env : nat -> RoundEnv) (conv : string)
    (deadline : N) (k : nat) (w : World) : list A2AMessage :=
  match fuel with
  | O => []
  | S fuel' =>
      if (now w <? deadline)%N then
        match fst (broker_poll (env k) "Researcher" (pre_poll (env k) w)) with
        | StatusOk m =>
            m :: (if String.eqb (conv_id m) conv then []
                  else driver_polls fuel' env conv deadline (S k)
                         (after_round (env k) w))
        | _ => driver_polls fuel' env conv deadline (S k) (after_round (env k) w)
        end
      else []
  end.

(** What the outside decides for one call of [run_pipeline]. *)
Record PipelineEnv : Type := mkPipelineEnv {
  (** the pointer [mcp_put] returns for the stripped query, [None] when it
      raises *)
  mcp_put : option string;
  (** [uuid.uuid4()] as text *)
  uuid4 : string;
  (** the POST of the request envelope reaches the broker *)
  send_up : bool;
  rounds : nat -> RoundEnv
}.

(** The data the page is rendered from. *)
Record StatusBlock : Type := mkStatus {
  sb_attempts : nat;
  sb_pointer : string;
  sb_enqueue : SendResp
}.

Inductive Page : Type :=
  | McpError
  | BrokerEnqueueError
  | NoReply (status : StatusBlock) (stray_block : option A2AMessage)
  | ReplyReceived (status : StatusBlock) (stray_block : option A2AMessage)
      (conversation : string) (source_pointer : json) (raw : A2AMessage)
      (analysis_text : json).

(** Steps 4 to 7: the page for the loop's final variables.  The stray
    block shows [stray_msgs[0]] only. *)
Definition render (pointer conv : string) (send_resp : SendResp) (l : Loop)
  : Page :=
  let status_block := mkStatus (attempts l) pointer send_resp in
  let stray_block := head (stray_msgs l) in
  match reply_msg l with
  | None => NoReply status_block stray_block
  | Some m =>
      ReplyReceived status_block stray_block conv
        (default (JStr EmptyString) (payload m !! "source_pointer")) m
        (default (JStr EmptyString) (payload m !! "analysis"))
  end.

(** The request envelope of step 2. *)
Definition request_msg (pointer conv : string) : A2AMessage :=
  {| sender := "Researcher";
     receiver := "Analyst";
     type := "inform";
     payload := {[ "pointer" := JStr pointer;
                   "task" := JStr "Verify facts, extract KPIs, ~120-word summary." ]};
     conv_id := conv |}.

(** [run_pipeline]: the page, with the world it leaves; [None] is fuel run
    out in the loop. *)
Definition run_pipeline (fuel : nat) (env : PipelineEnv) (w : World)
  : option (Page * World) :=
  match mcp_put env with
  | None => Some (McpError, w)
  | Some pointer =>
      let conv := "conv-" +:+ uuid4 env in
      let msg := request_msg pointer conv in
      if send_up env then
        let '(send_resp, q) := broker_send msg (broker_queues w) in
        let w1 := mkWorld q (analyst_inbox w) (now w) in
        let deadline := (now w1 + WAIT_MS)%N in
        match wait_loop fuel (rounds env) conv deadline (mkLoop None 0 []) w1 with
        | None => None
        | Some (l, w2) => Some (render pointer conv send_resp l, w2)
        end
      else Some (BrokerEnqueueError, w)
  end.

End Frontend.

(** ** The analyst service as it stands *)
Module Shipped.

(** Tokens of Python source, as far as lines 86 to 94 of
    [analyst_service.py] need them. *)
Inductive token : Type :=
  | NAME (s : string)
  | OP (s : string)
  | NUMBER (s : string)
  (** a list display in brackets, taken whole *)
  | DISPLAY.

(** The arguments of the call [groq_client.chat.completions.create(...)] in
    [call_groq], lines 87 to 93 split at the commas outside brackets.  After
    the comma that ends [messages=[...]], line 91 goes on with the words
    [pip install fastapi uvicorn groq requests python-dotenv] and no comma;
    inside parentheses the end of a line separates nothing, so these words
    and the [temperature=0.2] of line 92 are one argument. *)
Definition create_arguments : list (list token) :=
  [ [NAME "model"; OP "="; NAME "GROQ_MODEL"];
    [NAME "messages"; OP "="; DISPLAY];
    [NAME "pip"; NAME "install"; NAME "fastapi"; NAME "uvicorn"; NAME "groq";
     NAME "requests"; NAME "python"; OP "-"; NAME "dotenv";
     NAME "temperature"; OP "="; NUMBER "0.2"];
    [NAME "max_tokens"; OP "="; NUMBER "600"] ].

(** Two names side by side.  None of the names above is a keyword, and two
    such names in a row are no Python expression: the compiler stops there
    with a syntax error. *)
Fixpoint adjacent_names (ts : list token) : bool :=
  match ts with
  | [] => false
  | t :: rest =>
      match t, rest with
      | NAME _, NAME _ :: _ => true
      | _, _ => adjacent_names rest
      end
  end.

Definition syntax_error : bool := existsb adjacent_names create_arguments.

(** Python compiles a file whole before it runs any of it: a file with a
    syntax error defines no handler and the service does not start. *)
Inductive service : Type :=
  | NotRunning
  | Running.

Definition analyst_service : service :=
  if syntax_error then NotRunning else Running.

(** [POST /pull_process_and_reply] as a client finds it: no answer ([None])
    and nothing done when the service is not running. *)
Definition pull_process_and_reply (env : Analyst.Env) (st : Analyst.State)
  : option Analyst.Outcome * Analyst.State :=
  match analyst_service with
  | NotRunning => (None, st)
  | Running =>
      let '(o, st') := Analyst.pull_process_and_reply env st in (Some o, st')
  end.

(** [GET /inbox] as a client finds it. *)
Definition inbox (st : Analyst.State) : option (list A2AMessage) :=
  match analyst_service with
  | NotRunning => None
  | Running => Some (Analyst.inbox st)
  end.

End Shipped.

(** ** The registry ([mcp_registry.py]) *)
Module Registry.

(** A value of [CONTEXT_STORE]: the dictionary with keys [data], [owner]
    and [meta]. *)
Record Resource : Type := mkResource {
  data : string;
  owner : string;
  meta : gmap string json
}.

(** [CONTEXT_STORE: Dict[str, Dict[str, Any]]], entries in insertion order,
    which [mcp_list] shows. *)
Abbreviation Store := (list (string * Resource)).

(** [rid in CONTEXT_STORE] and [CONTEXT_STORE[rid]]. *)
Fixpoint dict_get (k : string) (s : Store) : option Resource :=
  match s with
  | [] => None
  | (k', v) :: s' => if String.eqb k' k then Some v else dict_get k s'
  end.

(** [CONTEXT_STORE[k] = v]: a key already there keeps its place, a new
    one goes last. *)
Fixpoint dict_set (k : string) (v : Resource) (s : Store) : Store :=
  match s with
  | [] => [(k, v)]
  | (k', v') :: s' =>
      if String.eqb k' k then (k, v) :: s' else (k', v') :: dict_set k v s'
  end.

(** [class MCPCreateRequest(BaseModel)]. *)
Record MCPCreateRequest : Type := mkCreateRequest {
  req_data : string;
  req_owner : string;
  req_meta : option (gmap string json)
}.

(** [HTTPException(status_code, detail)]. *)
Record HTTPException : Type := mkHTTPException {
  status_code : nat;
  detail : string
}.

Record CreateResp : Type := mkCreateResp {
  cr_pointer : string;
  cr_rid : string
}.

Record FetchResp : Type := mkFetchResp {
  fr_rid : string;
  fr_data : string;
  fr_owner : string;
  fr_meta : gmap string json
}.

Record ListEntry : Type := mkListEntry {
  le_rid : string;
  le_owner : string;
  le_meta : gmap string json
}.

(** [authorization != f"Bearer {REGISTRY_TOKEN}"], negated; the header is
    [None] when the request has none. *)
Definition authorized (token : string) (authorization : option string) : bool :=
  match authorization with
  | Some a => String.eqb a ("Bearer " +:+ token)
  | None => false
  end.

(** [mcp_create]; [token] is the service's [REGISTRY_TOKEN], [uuid] the
    text of [uuid.uuid4()]. *)
Definition mcp_create (token uuid : string) (req : MCPCreateRequest)
    (authorization : option string) (s : Store)
  : (HTTPException + CreateResp) * Store :=
  if negb (authorized token authorization)
  then (inl (mkHTTPException 401 "Unauthorized MCP create"), s)
  else
    let rid := uuid in
    let s' :=
      dict_set rid
        (mkResource (req_data req) (req_owner req) (default ∅ (req_meta req)))
        s in
    (inr (mkCreateResp ("ctx://note/" +:+ rid) rid), s').

(** [mcp_fetch]. *)
Definition mcp_fetch (token rid : string) (authorization : option string)
    (s : Store) : HTTPException + FetchResp :=
  if negb (authorized token authorization)
  then inl (mkHTTPException 401 "Unauthorized MCP fetch")
  else
    match dict_get rid s with
    | None => inl (mkHTTPException 404 "Not found")
    | Some v => inr (mkFetchResp rid (data v) (owner v) (meta v))
    end.

(** [mcp_list]. *)
Definition mcp_list (token : string) (authorization : option string)
    (s : Store) : HTTPException + list ListEntry :=
  if negb (authorized token authorization)
  then inl (mkHTTPException 401 "Unauthorized MCP list")
  else inr (map (fun kv => mkListEntry (fst kv) (owner (snd kv)) (meta (snd kv))) s).

(** A text with no slash in it, as the text of a UUID is. *)
Fixpoint has_slash (s : string) : bool :=
  match s with
  | EmptyString => false
  | String c s' => Ascii.eqb c "/"%char || has_slash s'
  end.

End Registry.

(** ** The researcher ([researcher_service.py]) *)
Module Researcher.
Import Broker.

(** What the service is configured with and finds outside.  A call that
    fails is one that does not reach its peer; an answer lost after the peer
    has acted is not among these environments. *)
Record Env : Type := mkEnv {
  (** the [REGISTRY_TOKEN] of this service *)
  REGISTRY_TOKEN : string;
  (** the POST to the registry reaches it *)
  mcp_reachable : bool;
  (** the [Authorization] value the registry's handler receives for a header
      value this service sends: the HTTP client and server in between may
      trim it, or drop it ([None]) *)
  wire : string -> option string;
  (** the [REGISTRY_TOKEN] of the registry, and its next [uuid.uuid4()] *)
  registry_token : string;
  registry_uuid : string;
  (** the POST and the GET to the broker reach it *)
  send_reachable : bool;
  poll_reachable : bool
}.

(** The registry, the broker and the module-level [INBOX]. *)
Record World : Type := mkWorld {
  store : Registry.Store;
  queues : Queues;
  INBOX : list A2AMessage
}.

(** [mcp_put(data, owner, meta)]: the pointer, or [None] for the exception
    of [raise_for_status] or of the connection. *)
Definition mcp_put (env : Env) (data owner : string)
    (meta : option (gmap string json)) (s : Registry.Store)
  : option string * Registry.Store :=
  if mcp_reachable env then
    match Registry.mcp_create (registry_token env) (registry_uuid env)
            (Registry.mkCreateRequest data owner (Some (default ∅ meta)))
            (wire env ("Bearer " +:+ REGISTRY_TOKEN env)) s with
    | (inr r, s') => (Some (Registry.cr_pointer r), s')
    | (inl _, s') => (None, s')
    end
  else (None, s).

Definition nl : string := String (Ascii.ascii_of_nat 10) EmptyString.

(** The business note of [produce_note_and_enqueue]. *)
Definition note : string :=
  "Q3 EdTech report (Pakistan):" +:+ nl
  +:+ "- YoY growth: 38–42%" +:+ nl
  +:+ "- Drivers: mobile-first adoption, fee-based LMS in HEIs, local content" +:+ nl
  +:+ "- Risks: churn, regulatory uncertainty" +:+ nl
  +:+ "- Sources: ReportA(2025), ReportB(2024), SurveyC(n=612)".

Definition note_meta : gmap string json :=
  {[ "topic" := JStr "EdTech"; "quarter" := JStr "Q3";
     "country" := JStr "PK"; "year" := JInt 2025 ]}.

(** The envelope of step 3 for a pointer. *)
Definition note_msg (pointer : string) : A2AMessage :=
  {| sender := "Researcher";
     receiver := "Analyst";
     type := "inform";
     payload := {[ "pointer" := JStr pointer;
                   "task" := JStr "Verify facts, extract KPIs, 120-word summary." ]};
     conv_id := "conv-001" |}.

Inductive failure : Type :=
  | StoreFailed
  | SendFailed
  | PollFailed.

(** What [produce_note_and_enqueue] returns: the envelope and the broker's
    answer, or the exception that ends it. *)
Inductive Produced : Type :=
  | Enqueued (enqueued : A2AMessage) (broker_response : SendResp)
  | ProduceRaised (f : failure).

(** [produce_note_and_enqueue]. *)
Definition produce_note_and_enqueue (env : Env) (w : World) : Produced * World :=
  match mcp_put env note "Researcher" (Some note_meta) (store w) with
  | (None, s') => (ProduceRaised StoreFailed, mkWorld s' (queues w) (INBOX w))
  | (Some pointer, s') =>
      let msg := note_msg pointer in
      if send_reachable env then
        let '(r, q) := broker_send msg (queues w) in
        (Enqueued msg r, mkWorld s' q (INBOX w))
      else (ProduceRaised SendFailed, mkWorld s' (queues w) (INBOX w))
  end.

(** [pull_reply_from_broker]: it returns nothing; [Some f] is the exception
    that ends it. *)
Definition pull_reply_from_broker (env : Env) (w : World)
  : option failure * World :=
  if poll_reachable env then
    let '(data, q) := broker_poll "Researcher" (queues w) in
    match data with
    | PollOk message => (None, mkWorld (store w) q (INBOX w ++ [message]))
    | PollEmpty => (None, mkWorld (store w) q (INBOX w))
    end
  else (Some PollFailed, w).

(** [GET /inbox] and [DELETE /inbox/clear]. *)
Definition inbox (w : World) : list A2AMessage := INBOX w.
Definition inbox_clear (w : World) : World := mkWorld (store w) (queues w) [].

(** [n] calls of [pull_reply_from_broker] in a row. *)
Fixpoint pull_n (n : nat) (env : Env) (w : World) : World :=
  match n with
  | O => w
  | S n' => pull_n n' env (snd (pull_reply_from_broker env w))
  end.

End Researcher.

(** ** Counting over a run of broker requests *)
Module Tally.
Import Broker.

(** The envelopes of a run sent to [a], in order. *)
Definition sent_to (a : string) (rqs : list request) : list A2AMessage :=
  omap (fun rq => match rq with
                  | Send m => if String.eqb (receiver m) a then Some m else None
                  | _ => None
                  end) rqs.

(** The envelopes the polls of [a] in a run were answered with, in order. *)
Definition delivered_to (a : string) (log : list (request * response))
  : list A2AMessage :=
  omap (fun rr => match rr with
                  | (Poll b, Polled (PollOk m)) =>
                      if String.eqb b a then Some m else None
                  | _ => None
                  end) log.

(** Every pending envelope sits in the mailbox of its receiver. *)
Definition well_routed (q : Queues) : Prop :=
  forall k m, m ∈ mailbox q k -> receiver m = k.

End Tally.

(** ** Sample requests to the registry *)
Module Fixtures.

Definition reqNote : Registry.MCPCreateRequest :=
  Registry.mkCreateRequest "Q3 report" "Researcher" None.
Definition reqMemo : Registry.MCPCreateRequest :=
  Registry.mkCreateRequest "memo" "Analyst" (Some {[ "kind" := JStr "memo" ]}).
Definition bearer : option string := Some "Bearer teacher-secret".

End Fixtures.

(** ** Sample envelopes and stores, for the concrete runs below *)
Module Sample.
Import Broker.

Definition envA : A2AMessage :=
  mkMsg "R" "A" "inform" {[ "pointer" := JStr "p1" ]} "c1".
Definition envB : A2AMessage :=
  mkMsg "R" "A" "inform" {[ "pointer" := JStr "p2" ]} "c2".
(** an envelope sent to the same recipient earlier on *)
Definition envX : A2AMessage :=
  mkMsg "R" "A" "request" ∅ "c0".
(** an envelope for another recipient *)
Definition envY : A2AMessage :=
  mkMsg "A" "R" "confirm" ∅ "c9".

(** a request as the driver builds it, and one without a pointer *)
Definition reqR : A2AMessage := Frontend.request_msg "ctx://note/42" "conv-1".
Definition noPtr : A2AMessage :=
  mkMsg "Researcher" "Analyst" "request" {[ "task" := JStr "ping" ]} "conv-8".

(** the fetch of [42] answered with one note and no other fetch answered,
    no key for the text generation, every peer reachable *)
Definition aenv : Analyst.Env :=
  Analyst.mkEnv true
    (fun rid => if String.eqb rid "42" then Some "Q3 report" else None)
    None true.

Definition replyTo (m : A2AMessage) : A2AMessage :=
  mkMsg "Analyst" "Researcher" "confirm"
    {[ "analysis" := JStr Analyst.canned_response;
       "source_pointer" := JStr "ctx://note/42" ]}
    (conv_id m).

(** two replies of other conversations waiting for the driver, and a
    round in which the analyst service is down and the call to it gives up
    after ten seconds *)
Definition strayS1 : A2AMessage :=
  mkMsg "Analyst" "Researcher" "confirm" ∅ "conv-8".
Definition strayS2 : A2AMessage :=
  mkMsg "Analyst" "Researcher" "confirm" ∅ "conv-9".
Definition slowRound : Frontend.RoundEnv :=
  Frontend.mkRoundEnv [] false aenv 10000 true 0.
Definition slowWorld : Frontend.World :=
  Frontend.mkWorld (send_all [strayS1; strayS2] ∅) [] 0.

(** a round in which every peer answers at once *)
Definition promptRound : Frontend.RoundEnv :=
  Frontend.mkRoundEnv [] true aenv 0 true 0.

(** the reply and the attempts a finished loop ended with *)
Definition reply_of (r : option (Frontend.Loop * Frontend.World))
  : option (option A2AMessage * nat) :=
  (fun lw => (Frontend.reply_msg (fst lw), Frontend.attempts (fst lw))) <$> r.

End Sample.

(** ** More sample environments *)
Module Cases.
Import Broker Sample.

(** a researcher and a registry with the same token, every peer reachable,
    headers arriving as sent *)
Definition renv : Researcher.Env :=
  Researcher.mkEnv "teacher-secret" true Some "teacher-secret" "9f1c" true true.

(** the same researcher with a token the registry does not know *)
Definition badTokenEnv : Researcher.Env :=
  Researcher.mkEnv "guess" true Some "teacher-secret" "9f1c" true true.

(** a researcher whose token ends in a blank, which is gone when the header
    reaches the registry *)
Definition blankEnv : Researcher.Env :=
  Researcher.mkEnv "teacher-secret " true
    (fun _ => Some "Bearer teacher-secret") "teacher-secret" "9f1c" true true.


End Cases.

(** ** Properties of the broker *)
Module BrokerFacts.
Import Broker.

Lemma getitem_fst k (q : Queues) : fst (getitem k q) = mailbox q k.
Proof. unfold getitem, mailbox. by destruct (q !! k). Qed.

Lemma getitem_bound k (q : Queues) :
  snd (getitem k q) !! k = Some (mailbox q k).
Proof.
  unfold getitem, mailbox. destruct (q !! k) eqn:E; simpl; [done|].
  by rewrite lookup_insert_eq.
Qed.

Lemma getitem_mailbox k (q : Queues) a :
  mailbox (snd (getitem k q)) a = mailbox q a.
Proof.
  unfold getitem, mailbox. destruct (q !! k) eqn:E; simpl; [done|].
  destruct (decide (k = a)) as [->|Hne].
  - by rewrite lookup_insert_eq, E.
  - by rewrite lookup_insert_ne.
Qed.

Lemma getitem_known k (q : Queues) : is_Some (q !! k) -> snd (getitem k q) = q.
Proof. intros [d Hd]. unfold getitem. by rewrite Hd. Qed.

Lemma getitem_again k (q : Queues) :
  snd (getitem k (snd (getitem k q))) = snd (getitem k q).
Proof. apply getitem_known. rewrite getitem_bound. eauto. Qed.

Lemma mailbox_insert_eq (q : Queues) k d : mailbox (<[k := d]> q) k = d.
Proof. unfold mailbox. by rewrite lookup_insert_eq. Qed.

Lemma mailbox_insert_ne (q : Queues) k a d :
  k <> a -> mailbox (<[k := d]> q) a = mailbox q a.
Proof. intros Hne. unfold mailbox. by rewrite lookup_insert_ne. Qed.

(** *** What each handler answers and leaves behind, by mailbox *)

(** A handler starts with [QUEUES[k]]: name the deque it gets as the
    mailbox of [k], and keep that the other mailboxes are as before. *)
Ltac read_queue k q :=
  let Hd := fresh "Hd" in
  let Hm := fresh "Hm" in
  pose proof (getitem_fst k q) as Hd;
  pose proof (getitem_mailbox k q) as Hm;
  destruct (getitem k q) as [? ?]; simpl in Hd, Hm |- *; subst.

Lemma send_resp msg q :
  fst (broker_send msg q) =
    mkSendResp "enqueued" (receiver msg) (S (length (mailbox q (receiver msg)))).
Proof.
  unfold broker_send. read_queue (receiver msg) q.
  rewrite mailbox_insert_eq, length_app. simpl. f_equal. lia.
Qed.

Lemma send_mailbox_eq msg q :
  mailbox (snd (broker_send msg q)) (receiver msg) =
    mailbox q (receiver msg) ++ [msg].
Proof.
  unfold broker_send. read_queue (receiver msg) q.
  by rewrite mailbox_insert_eq.
Qed.

Lemma send_mailbox_ne msg q a :
  receiver msg <> a -> mailbox (snd (broker_send msg q)) a = mailbox q a.
Proof.
  intros Hne. unfold broker_send. read_queue (receiver msg) q.
  by rewrite mailbox_insert_ne.
Qed.

Lemma poll_resp agent q :
  fst (broker_poll agent q) =
    match mailbox q agent with [] => PollEmpty | m :: _ => PollOk m end.
Proof.
  unfold broker_poll. read_queue agent q. by destruct (mailbox q agent).
Qed.

Lemma poll_mailbox_eq agent q :
  mailbox (snd (broker_poll agent q)) agent = tail (mailbox q agent).
Proof.
  unfold broker_poll. read_queue agent q.
  destruct (mailbox q agent) eqn:E; simpl.
  - by rewrite Hm.
  - by rewrite mailbox_insert_eq.
Qed.

Lemma poll_mailbox_ne agent q a :
  agent <> a -> mailbox (snd (broker_poll agent q)) a = mailbox q a.
Proof.
  intros Hne. unfold broker_poll. read_queue agent q.
  destruct (mailbox q agent); simpl; [done|]. by rewrite mailbox_insert_ne.
Qed.

Lemma poll_empty_store agent q :
  mailbox q agent = [] -> snd (broker_poll agent q) = snd (getitem agent q).
Proof.
  intros He. unfold broker_poll.
  pose proof (getitem_fst agent q) as Hd.
  destruct (getitem agent q) as [d q1]. simpl in *. subst d. by rewrite He.
Qed.

Lemma size_resp agent q :
  fst (broker_size agent q) = mkSizeResp agent (length (mailbox q agent)).
Proof. unfold broker_size. by read_queue agent q. Qed.

Lemma size_mailbox agent q a :
  mailbox (snd (broker_size agent q)) a = mailbox q a.
Proof. unfold broker_size. by read_queue agent q. Qed.

(** *** Runs of requests *)

Lemma poll_n_S n agent q :
  poll_n (S n) agent q =
    (fst (broker_poll agent q) :: fst (poll_n n agent (snd (broker_poll agent q))),
     snd (poll_n n agent (snd (broker_poll agent q)))).
Proof.
  simpl. destruct (broker_poll agent q) as [r q1]. simpl.
  by destruct (poll_n n agent q1) as [rs q2].
Qed.

Lemma serve_cons rq rqs q :
  serve (rq :: rqs) q =
    (fst (handle rq q) :: fst (serve rqs (snd (handle rq q))),
     snd (serve rqs (snd (handle rq q)))).
Proof.
  simpl. destruct (handle rq q) as [r q1]. simpl.
  by destruct (serve rqs q1) as [rs q2].
Qed.

Lemma serve_cons_snd rq rqs q :
  snd (serve (rq :: rqs) q) = snd (serve rqs (snd (handle rq q))).
Proof. by rewrite serve_cons. Qed.

Lemma serve_app_snd rqs1 rqs2 q :
  snd (serve (rqs1 ++ rqs2) q) = snd (serve rqs2 (snd (serve rqs1 q))).
Proof.
  revert q. induction rqs1 as [|rq rqs1 IH]; intros q; [done|].
  rewrite <- app_comm_cons, !serve_cons. simpl. apply IH.
Qed.

Lemma handle_snd rq q :
  snd (handle rq q) =
    match rq with
    | Send msg => snd (broker_send msg q)
    | Poll agent => snd (broker_poll agent q)
    | Size agent => snd (broker_size agent q)
    end.
Proof.
  destruct rq as [msg|agent|agent]; simpl.
  - by destruct (broker_send msg q).
  - by destruct (broker_poll agent q).
  - by destruct (broker_size agent q).
Qed.

Lemma handle_fst rq q :
  fst (handle rq q) =
    match rq with
    | Send msg => Sent (fst (broker_send msg q))
    | Poll agent => Polled (fst (broker_poll agent q))
    | Size agent => Sized (fst (broker_size agent q))
    end.
Proof.
  destruct rq as [msg|agent|agent]; simpl.
  - by destruct (broker_send msg q).
  - by destruct (broker_poll agent q).
  - by destruct (broker_size agent q).
Qed.

Lemma handle_send_mailbox msg q :
  mailbox (snd (handle (Send msg) q)) (receiver msg)
    = mailbox q (receiver msg) ++ [msg].
Proof. rewrite handle_snd. apply send_mailbox_eq. Qed.

(** A request leaves the mailboxes of all names but its target alone. *)
Lemma handle_frame rq q a :
  target rq <> a -> mailbox (snd (handle rq q)) a = mailbox q a.
Proof.
  intros Hne. rewrite handle_snd. destruct rq as [msg|agent|agent]; simpl in *.
  - by apply send_mailbox_ne.
  - by apply poll_mailbox_ne.
  - apply size_mailbox.
Qed.

Lemma serve_frame rqs q a :
  Forall (fun rq => target rq <> a) rqs ->
  mailbox (snd (serve rqs q)) a = mailbox q a.
Proof.
  intros Hall. revert q. induction Hall as [|rq rqs Hrq _ IH]; intros q; [done|].
  rewrite serve_cons. simpl. rewrite IH. by apply handle_frame.
Qed.

Lemma send_all_snoc msgs m q :
  send_all (msgs ++ [m]) q = snd (broker_send m (send_all msgs q)).
Proof. unfold send_all. by rewrite foldl_app. Qed.

Lemma send_all_frame msgs q a :
  Forall (fun m => receiver m <> a) msgs ->
  mailbox (send_all msgs q) a = mailbox q a.
Proof.
  intros Hall. revert q. induction Hall as [|m msgs Hm _ IH]; intros q; [done|].
  unfold send_all in *. simpl. rewrite IH. by apply send_mailbox_ne.
Qed.

(** [n] polls hand out the first [n] envelopes in order, then [empty]. *)
Lemma poll_n_resp n agent q :
  fst (poll_n n agent q) =
    map PollOk (take n (mailbox q agent))
    ++ replicate (n - length (mailbox q agent)) PollEmpty.
Proof.
  revert q. induction n as [|n IH]; intros q; [done|].
  rewrite poll_n_S. simpl fst. rewrite IH, poll_resp, poll_mailbox_eq.
  destruct (mailbox q agent) as [|m l]; simpl.
  - by rewrite take_nil, Nat.sub_0_r.
  - done.
Qed.

Lemma poll_n_mailbox_eq n agent q :
  mailbox (snd (poll_n n agent q)) agent = drop n (mailbox q agent).
Proof.
  revert q. induction n as [|n IH]; intros q; [done|].
  rewrite poll_n_S. simpl snd. rewrite IH, poll_mailbox_eq.
  destruct (mailbox q agent) as [|m l]; simpl; [by rewrite drop_nil|done].
Qed.

Lemma poll_n_mailbox_ne n agent q a :
  agent <> a -> mailbox (snd (poll_n n agent q)) a = mailbox q a.
Proof.
  intros Hne. revert q. induction n as [|n IH]; intros q; [done|].
  rewrite poll_n_S. simpl snd. rewrite IH. by apply poll_mailbox_ne.
Qed.

(** *** The mailboxes are all a client can observe *)

Lemma handle_same rq q1 q2 :
  same_mailboxes q1 q2 ->
  fst (handle rq q1) = fst (handle rq q2)
  /\ same_mailboxes (snd (handle rq q1)) (snd (handle rq q2)).
Proof.
  intros Hsame. split.
  - rewrite !handle_fst. destruct rq as [msg|agent|agent].
    + by rewrite !send_resp, Hsame.
    + by rewrite !poll_resp, Hsame.
    + by rewrite !size_resp, Hsame.
  - intros a. rewrite !handle_snd. destruct rq as [msg|agent|agent].
    + destruct (decide (receiver msg = a)) as [<-|Hne].
      * by rewrite !send_mailbox_eq, Hsame.
      * by rewrite !send_mailbox_ne.
    + destruct (decide (agent = a)) as [<-|Hne].
      * by rewrite !poll_mailbox_eq, Hsame.
      * by rewrite !poll_mailbox_ne.
    + by rewrite !size_mailbox.
Qed.

Lemma serve_same rqs q1 q2 :
  same_mailboxes q1 q2 ->
  fst (serve rqs q1) = fst (serve rqs q2)
  /\ same_mailboxes (snd (serve rqs q1)) (snd (serve rqs q2)).
Proof.
  revert q1 q2. induction rqs as [|rq rqs IH]; intros q1 q2 Hsame; [done|].
  rewrite !serve_cons. simpl.
  destruct (handle_same rq q1 q2 Hsame) as [Hr Hq].
  destruct (IH _ _ Hq) as [Hrs Hqs]. by rewrite Hr, Hrs.
Qed.

Lemma unknown_agent_is_empty agent (q : Queues) :
  q !! agent = None -> mailbox q agent = [].
Proof. intros Hn. unfold mailbox. by rewrite Hn. Qed.

(** Polls of an empty mailbox: the store after the first one is the store
    with the name bound, and stays that. *)
Lemma empty_poll_n_store n agent q :
  mailbox q agent = [] ->
  snd (poll_n n agent q) = match n with O => q | S _ => snd (getitem agent q) end.
Proof.
  intros He. revert q He. induction n as [|n IH]; intros q He; [done|].
  rewrite poll_n_S. simpl snd. rewrite IH.
  - rewrite poll_empty_store by done. destruct n; [done|]. apply getitem_again.
  - by rewrite poll_mailbox_eq, He.
Qed.

End BrokerFacts.

(** ** The broker's testable properties *)
Module BrokerSpec.
Import Broker BrokerFacts Sample.

(** C7.  [broker_send] appends the envelope to its receiver's mailbox and
    answers with status [enqueued], the receiver, and a size that is the
    length of that mailbox after the append: the length before plus one,
    and what [broker_size] reports next. *)
Theorem send_enqueues_and_reports_size msg q :
  fst (broker_send msg q)
    = mkSendResp "enqueued" (receiver msg)
        (S (length (mailbox q (receiver msg))))
  /\ mailbox (snd (broker_send msg q)) (receiver msg)
       = mailbox q (receiver msg) ++ [msg]
  /\ sr_size (fst (broker_send msg q))
       = length (mailbox (snd (broker_send msg q)) (receiver msg))
  /\ sz_size (fst (broker_size (receiver msg) (snd (broker_send msg q))))
       = sr_size (fst (broker_send msg q)).
Proof.
  rewrite send_resp, size_resp, send_mailbox_eq, length_app. simpl.
  repeat split; lia.
Qed.

(** C3, as the code has it.  A poll of a mailbox holding [m :: rest]
    returns [m], leaves [rest], lowers the reported size by exactly one and
    touches no other mailbox; the poll that follows at once returns the
    next envelope, and [empty] exactly when [m] was the only one. *)
Theorem poll_is_destructive agent q m rest :
  mailbox q agent = m :: rest ->
  fst (broker_poll agent q) = PollOk m
  /\ mailbox (snd (broker_poll agent q)) agent = rest
  /\ S (sz_size (fst (broker_size agent (snd (broker_poll agent q)))))
       = sz_size (fst (broker_size agent q))
  /\ (forall a, agent <> a ->
        mailbox (snd (broker_poll agent q)) a = mailbox q a)
  /\ fst (broker_poll agent (snd (broker_poll agent q)))
       = match rest with [] => PollEmpty | m' :: _ => PollOk m' end
  /\ (fst (broker_poll agent (snd (broker_poll agent q))) = PollEmpty
        <-> rest = []).
Proof.
  intros Hq.
  assert (Hnext : fst (broker_poll agent (snd (broker_poll agent q)))
            = match rest with [] => PollEmpty | m' :: _ => PollOk m' end).
  { by rewrite poll_resp, poll_mailbox_eq, Hq. }
  repeat split.
  - by rewrite poll_resp, Hq.
  - by rewrite poll_mailbox_eq, Hq.
  - by rewrite !size_resp, poll_mailbox_eq, Hq.
  - intros a Hne. by apply poll_mailbox_ne.
  - done.
  - rewrite Hnext. by destruct rest.
  - intros ->. by rewrite Hnext.
Qed.

Lemma poll_is_destructive_witness :
  mailbox (send_all [envA; envB] ∅) "A" = envA :: [envB]
  /\ fst (broker_poll "A" (send_all [envA; envB] ∅)) = PollOk envA.
Proof.
  split; [reflexivity|].
  apply (poll_is_destructive "A" (send_all [envA; envB] ∅) envA [envB]).
  reflexivity.
Defined.

(** C3 as worded fails on a mailbox of two envelopes: the poll that
    follows the first at once, nothing enqueued in between, returns the
    second envelope and not [empty]. *)
Lemma second_poll_not_empty_counterexample :
  mailbox (send_all [envA; envB] ∅) "A" = [envA; envB]
  /\ fst (poll_n 2 "A" (send_all [envA; envB] ∅)) = [PollOk envA; PollOk envB]
  /\ fst (poll_n 2 "A" (send_all [envA; envB] ∅)) <> [PollOk envA; PollEmpty].
Proof.
  split; [reflexivity|]. split; [reflexivity|].
  intros H. discriminate H.
Qed.

(** C4.  Polling an agent with nothing pending, known to the store or not,
    any number of times: every answer is [empty], every mailbox holds what
    it held, no later run of requests can tell the store from the one
    before, and the size reported for the agent is zero.  The one trace in
    the dictionary is the binding of a name never referenced before to an
    empty deque (a mailbox comes into being on first reference); a store
    that has the name bound is left identical. *)
Theorem empty_poll_is_idempotent agent q n :
  mailbox q agent = [] ->
  fst (poll_n n agent q) = replicate n PollEmpty
  /\ same_mailboxes (snd (poll_n n agent q)) q
  /\ (forall rqs, fst (serve rqs (snd (poll_n n agent q))) = fst (serve rqs q))
  /\ (is_Some (q !! agent) -> snd (poll_n n agent q) = q)
  /\ fst (broker_size agent q) = mkSizeResp agent 0
  /\ fst (broker_size agent (snd (poll_n n agent q))) = mkSizeResp agent 0.
Proof.
  intros He.
  assert (Hsame : same_mailboxes (snd (poll_n n agent q)) q).
  { intros a. destruct (decide (agent = a)) as [<-|Hne].
    - by rewrite poll_n_mailbox_eq, He, drop_nil.
    - by apply poll_n_mailbox_ne. }
  repeat split.
  - by rewrite poll_n_resp, He, take_nil, Nat.sub_0_r.
  - done.
  - intros rqs. by apply serve_same.
  - intros Hk. rewrite empty_poll_n_store by done.
    destruct n; [done|]. by apply getitem_known.
  - by rewrite size_resp, He.
  - by rewrite size_resp, Hsame, He.
Qed.

Lemma empty_poll_is_idempotent_witness :
  mailbox (∅ : Queues) "ghost" = []
  /\ fst (poll_n 3 "ghost" ∅) = [PollEmpty; PollEmpty; PollEmpty].
Proof.
  split; [reflexivity|].
  apply (empty_poll_is_idempotent "ghost" ∅ 3). reflexivity.
Defined.

(** C9.  Sending any number of envelopes addressed to [X] leaves the
    mailbox of another recipient [Y] as it was: same content, same reported
    size, same answers to any number of polls. *)
Theorem send_isolation X Y msgs q :
  X <> Y ->
  Forall (fun m => receiver m = X) msgs ->
  mailbox (send_all msgs q) Y = mailbox q Y
  /\ fst (broker_size Y (send_all msgs q)) = fst (broker_size Y q)
  /\ (forall n, fst (poll_n n Y (send_all msgs q)) = fst (poll_n n Y q)).
Proof.
  intros Hne Hall.
  assert (Hm : mailbox (send_all msgs q) Y = mailbox q Y).
  { apply send_all_frame. eapply Forall_impl; [exact Hall|].
    intros m Hr. simpl in Hr. congruence. }
  repeat split.
  - done.
  - by rewrite !size_resp, Hm.
  - intros n. by rewrite !poll_n_resp, Hm.
Qed.

Lemma send_isolation_witness :
  mailbox (send_all [envA; envB; envX] (send_all [envY] ∅)) "R" = [envY]
  /\ fst (poll_n 2 "R" (send_all [envA; envB; envX] (send_all [envY] ∅)))
       = [PollOk envY; PollEmpty].
Proof.
  destruct (send_isolation "A" "R" [envA; envB; envX] (send_all [envY] ∅))
    as (Hm & _ & Hp).
  - discriminate.
  - repeat constructor.
  - split; [rewrite Hm; reflexivity | rewrite Hp; reflexivity].
Defined.

(** C1, as the code has it.  Envelopes [A] then [B] are sent to a
    recipient, requests for other recipients coming in between or after,
    and neither is polled yet.  Successive polls of the recipient then
    return the envelopes that were pending before [A], in order, then [A],
    then [B]; when nothing was pending, two polls return [A] then [B]. *)
Theorem fifo_per_recipient q r A B between after :
  receiver A = r ->
  receiver B = r ->
  Forall (fun rq => target rq <> r) between ->
  Forall (fun rq => target rq <> r) after ->
  fst (poll_n (length (mailbox q r) + 2) r
         (snd (serve (Send A :: between ++ Send B :: after) q)))
    = map PollOk (mailbox q r ++ [A; B])
  /\ (mailbox q r = [] ->
      fst (poll_n 2 r (snd (serve (Send A :: between ++ Send B :: after) q)))
        = [PollOk A; PollOk B]).
Proof.
  intros HA HB Hbetween Hafter.
  assert (Hm : mailbox (snd (serve (Send A :: between ++ Send B :: after) q)) r
            = mailbox q r ++ [A; B]).
  { subst r. rewrite serve_cons_snd, serve_app_snd, serve_cons_snd.
    rewrite (serve_frame after) by done.
    rewrite <- HB, handle_send_mailbox, HB.
    rewrite (serve_frame between) by done.
    by rewrite handle_send_mailbox, <- app_assoc. }
  split.
  - rewrite poll_n_resp, Hm.
    rewrite take_ge by (rewrite length_app; simpl; lia).
    rewrite length_app. simpl length.
    rewrite Nat.sub_diag. simpl. by rewrite app_nil_r.
  - intros He. rewrite poll_n_resp, Hm, He. done.
Qed.

Lemma fifo_per_recipient_witness :
  fst (poll_n 2 "A" (snd (serve [Send envA; Send envY; Send envB; Poll "R"] ∅)))
    = [PollOk envA; PollOk envB].
Proof.
  refine (proj2 (fifo_per_recipient ∅ "A" envA envB [Send envY] [Poll "R"]
                   _ _ _ _) _); try reflexivity.
  - repeat constructor. discriminate.
  - repeat constructor. discriminate.
Defined.

(** C1 as worded fails when the recipient already has an envelope pending:
    [A] then [B] are sent before either is polled, and the two polls return
    the older envelope and then [A]. *)
Lemma fifo_pending_counterexample :
  receiver envA = "A" /\ receiver envB = "A"
  /\ mailbox (send_all [envX] ∅) "A" = [envX]
  /\ fst (poll_n 2 "A" (send_all [envA; envB] (send_all [envX] ∅)))
       = [PollOk envX; PollOk envA]
  /\ fst (poll_n 2 "A" (send_all [envA; envB] (send_all [envX] ∅)))
       <> [PollOk envA; PollOk envB].
Proof.
  repeat split; try reflexivity.
  intros H. discriminate H.
Qed.

End BrokerSpec.

(** ** The analyst step *)
Module AnalystFacts.
Import Broker BrokerFacts Analyst.


(** The step with nothing to poll, or no broker to poll. *)
Lemma pull_unreachable env st :
  poll_reachable env = false ->
  pull_process_and_reply env st = (Raised PollFailed, st).
Proof. intros Hdown. unfold pull_process_and_reply. by rewrite Hdown. Qed.

Lemma pull_no_messages env st :
  poll_reachable env = true ->
  mailbox (queues st) "Analyst" = [] ->
  fst (pull_process_and_reply env st) = NoMessages
  /\ INBOX (snd (pull_process_and_reply env st)) = INBOX st
  /\ same_mailboxes (queues (snd (pull_process_and_reply env st))) (queues st).
Proof.
  intros Hup Hq. unfold pull_process_and_reply. rewrite Hup. simpl negb. cbv iota.
  pose proof (poll_resp "Analyst" (queues st)) as Hr. rewrite Hq in Hr.
  pose proof (poll_mailbox_eq "Analyst" (queues st)) as He.
  pose proof (poll_mailbox_ne "Analyst" (queues st)) as Hne.
  destruct (broker_poll "Analyst" (queues st)) as [data q1]. simpl in *.
  subst data. simpl. repeat split.
  intros a. destruct (decide ("Analyst" = a)) as [<-|Hd].
  - by rewrite He, Hq.
  - by apply Hne.
Qed.

(** A reply is the only way out with [ReplyEnqueued]. *)
Lemma pull_reply_inv env st reply :
  fst (pull_process_and_reply env st) = ReplyEnqueued reply ->
  exists msg ptr doc analysis,
    fst (broker_poll "Analyst" (queues st)) = PollOk msg
    /\ payload msg !! "pointer" = Some (JStr ptr)
    /\ mcp_fetch env (last_segment EmptyString ptr) = Some doc
    /\ call_groq env system_prompt (user_prompt doc) = Some analysis
    /\ reply = mkMsg "Analyst" "Researcher" "confirm"
                 {[ "analysis" := JStr analysis;
                    "source_pointer" := JStr ptr ]}
                 (conv_id msg)
    /\ snd (pull_process_and_reply env st)
         = mkState (snd (broker_send reply
                           (snd (broker_poll "Analyst" (queues st)))))
             (INBOX st ++ [msg]).
Proof.
  unfold pull_process_and_reply.
  destruct (poll_reachable env); simpl negb; cbv iota; [|discriminate].
  destruct (broker_poll "Analyst" (queues st)) as [data q1].
  destruct data as [|msg]; [discriminate|].
  destruct (payload msg !! "pointer") as [p|] eqn:Hp; simpl; [|discriminate].
  destruct (negb (truthy p)); [discriminate|].
  destruct p as [|b|z|f|ptr|l|d]; simpl; try discriminate.
  destruct (mcp_fetch env (last_segment EmptyString ptr)) as [doc|] eqn:Hdoc;
    [|discriminate].
  destruct (call_groq env system_prompt (user_prompt doc)) as [analysis|] eqn:Ha;
    [|discriminate].
  destruct (send_reachable env); [|discriminate].
  simpl. intros [= <-]. by exists msg, ptr, doc, analysis.
Qed.

End AnalystFacts.

(** ** The analyst step: the handlers' text and the service as it stands *)
Module AnalystSpec.
Import Broker BrokerFacts Analyst AnalystFacts Sample.







End AnalystSpec.

(** ** The driver's waiting loop *)
Module FrontendFacts.
Import Broker BrokerFacts Frontend.

(** *** The clock *)

Lemma now_pre_poll e w : now (pre_poll e w) = (now w + trigger_ms e)%N.
Proof.
  unfold pre_poll, analyst_process_once, interfere.
  destruct (analyst_up e); [|done].
  by destruct (Analyst.pull_process_and_reply _ _).
Qed.

Lemma now_broker_poll e agent w :
  now (snd (broker_poll e agent w)) = (now w + poll_ms e)%N.
Proof.
  unfold broker_poll. destruct (poll_up e); [|done].
  by destruct (Broker.broker_poll agent (broker_queues w)).
Qed.

Lemma now_after_round e w : now (after_round e w) = (now w + cost e)%N.
Proof.
  unfold after_round, sleep, cost. simpl.
  rewrite now_broker_poll, now_pre_poll. lia.
Qed.

(** *** One pass *)

(** What the driver's poll returns is the head of its mailbox. *)
Lemma broker_poll_fst e agent w :
  fst (broker_poll e agent w) =
    if poll_up e then
      match mailbox (broker_queues w) agent with
      | [] => StatusEmpty
      | m :: _ => StatusOk m
      end
    else StatusError.
Proof.
  unfold broker_poll. destruct (poll_up e); [|done].
  pose proof (poll_resp agent (broker_queues w)) as Hr.
  destruct (Broker.broker_poll agent (broker_queues w)) as [r q]. simpl in *.
  subst r. by destruct (mailbox (broker_queues w) agent).
Qed.

Lemma round_spec e conv l w :
  round e conv l w =
    match fst (broker_poll e "Researcher" (pre_poll e w)) with
    | StatusOk m =>
        if String.eqb (conv_id m) conv
        then (true, mkLoop (Some m) (S (attempts l)) (stray_msgs l),
              snd (broker_poll e "Researcher" (pre_poll e w)))
        else (false,
              mkLoop (reply_msg l) (S (attempts l)) (stray_msgs l ++ [m]),
              after_round e w)
    | _ => (false, mkLoop (reply_msg l) (S (attempts l)) (stray_msgs l),
            after_round e w)
    end.
Proof.
  unfold round, after_round.
  destruct (broker_poll e "Researcher" (pre_poll e w)) as [p w2]. simpl.
  by destruct p.
Qed.

(** A pass whose poll finds no envelope of the conversation goes on to the
    sleep, and keeps what it popped. *)
Lemma round_no_match e conv l w :
  Forall (fun m => conv_id m <> conv)
    (mailbox (broker_queues (pre_poll e w)) "Researcher") ->
  exists extra,
    round e conv l w =
      (false, mkLoop (reply_msg l) (S (attempts l)) (stray_msgs l ++ extra),
       after_round e w)
    /\ Forall (fun m => conv_id m <> conv) extra.
Proof.
  intros Hall. rewrite round_spec, broker_poll_fst.
  destruct (poll_up e).
  - destruct (mailbox (broker_queues (pre_poll e w)) "Researcher") as [|m rest].
    + exists []. by rewrite app_nil_r.
    + apply Forall_cons in Hall as [Hm _].
      apply String.eqb_neq in Hm. rewrite Hm.
      exists [m]. split; [done|]. constructor; [|done].
      by apply String.eqb_neq.
  - exists []. by rewrite app_nil_r.
Qed.

(** *** The loop *)

Lemma wait_loop_S fuel env conv deadline l w :
  wait_loop (S fuel) env conv deadline l w =
    if (now w <? deadline)%N then
      if fst (fst (round (env (attempts l)) conv l w))
      then Some (snd (fst (round (env (attempts l)) conv l w)),
                 snd (round (env (attempts l)) conv l w))
      else wait_loop fuel env conv deadline
             (snd (fst (round (env (attempts l)) conv l w)))
             (snd (round (env (attempts l)) conv l w))
    else Some (l, w).
Proof.
  simpl. destruct (now w <? deadline)%N; [|done].
  by destruct (round (env (attempts l)) conv l w) as [[brk l'] w'].
Qed.

(** What the loop ends with: a reply of the conversation if any, strays of
    other conversations only, and together every envelope the driver's
    polls popped, in order. *)
Lemma wait_loop_keeps fuel env conv deadline : forall l w l' w',
  reply_msg l = None ->
  wait_loop fuel env conv deadline l w = Some (l', w') ->
  (forall m, reply_msg l' = Some m -> conv_id m = conv)
  /\ (exists extra,
        stray_msgs l' = stray_msgs l ++ extra
        /\ Forall (fun m => conv_id m <> conv) extra
        /\ extra ++ option_list (reply_msg l')
             = driver_polls fuel env conv deadline (attempts l) w).
Proof.
  induction fuel as [|fuel IH]; intros l w l' w' Hnone Hrun; [done|].
  rewrite wait_loop_S in Hrun. simpl driver_polls.
  destruct (now w <? deadline)%N.
  2:{ injection Hrun as <- <-. split; [by rewrite Hnone|].
      exists []. by rewrite app_nil_r, Hnone. }
  rewrite round_spec in Hrun.
  destruct (fst (broker_poll (env (attempts l)) "Researcher"
                   (pre_poll (env (attempts l)) w))) as [m| |].
  - destruct (String.eqb (conv_id m) conv) eqn:Heq; simpl in Hrun.
    + injection Hrun as <- <-. simpl. apply String.eqb_eq in Heq.
      split; [by intros ? [= <-]|].
      exists []. by rewrite app_nil_r.
    + apply IH in Hrun as [Hr (extra & Hs & Hall & Hp)]; [|done].
      simpl in *. split; [done|].
      exists (m :: extra). rewrite Hs, <- app_assoc. split; [done|].
      split; [|by rewrite <- Hp].
      constructor; [by apply String.eqb_neq|done].
  - simpl in Hrun. apply IH in Hrun as [Hr (extra & Hs & Hall & Hp)]; [|done].
    simpl in *. split; [done|]. by exists extra.
  - simpl in Hrun. apply IH in Hrun as [Hr (extra & Hs & Hall & Hp)]; [|done].
    simpl in *. split; [done|]. by exists extra.
Qed.

(** More fuel does not change a finished run. *)
Lemma wait_loop_mono env conv deadline : forall fuel fuel' l w r,
  fuel <= fuel' ->
  wait_loop fuel env conv deadline l w = Some r ->
  wait_loop fuel' env conv deadline l w = Some r.
Proof.
  induction fuel as [|fuel IH]; intros fuel' l w r Hle Hrun; [done|].
  destruct fuel' as [|fuel']; [lia|].
  rewrite wait_loop_S in *. destruct (now w <? deadline)%N; [|done].
  destruct (fst (fst (round (env (attempts l)) conv l w))); [done|].
  apply (IH fuel'); [lia|done].
Qed.

(** The loop ends, whatever the peers do: every pass that goes on sleeps
    [SLEEP_MS] at least. *)
Lemma wait_loop_total env conv deadline : forall fuel l w,
  (deadline <= now w + SLEEP_MS * N.of_nat fuel)%N ->
  exists r, wait_loop (S fuel) env conv deadline l w = Some r.
Proof.
  induction fuel as [|fuel IH]; intros l w Hfuel;
    rewrite wait_loop_S; destruct (N.ltb_spec (now w) deadline) as [Hlt|Hge];
    [lia | by eauto | | by eauto].
  pose proof (now_after_round (env (attempts l)) w) as Hnow.
  assert (Hnext : (deadline <= now (after_round (env (attempts l)) w)
                               + SLEEP_MS * N.of_nat fuel)%N)
    by (unfold cost, SLEEP_MS in *; lia).
  rewrite round_spec.
  destruct (fst (broker_poll (env (attempts l)) "Researcher"
                   (pre_poll (env (attempts l)) w))) as [m| |]; cbn [fst snd].
  - destruct (String.eqb (conv_id m) conv); cbn [fst snd]; [by eauto|].
    by apply IH.
  - by apply IH.
  - by apply IH.
Qed.

Lemma never_appears_next env conv k w :
  never_appears env conv k w ->
  never_appears env conv (S k) (after_round (env k) w).
Proof.
  intros H n. specialize (H (S n)). simpl in H.
  by rewrite Nat.add_succ_r in H.
Qed.

(** A wait in which no envelope of the conversation ever shows up ends,
    with no reply, at the first clock check at or past the deadline. *)
Lemma quiet_run env conv deadline : forall fuel l w,
  reply_msg l = None ->
  never_appears env conv (attempts l) w ->
  (deadline <= now w + SLEEP_MS * N.of_nat fuel)%N ->
  exists l' w',
    wait_loop (S fuel) env conv deadline l w = Some (l', w')
    /\ reply_msg l' = None
    /\ (deadline <= now w')%N
    /\ ((deadline <= now w)%N -> l' = l /\ w' = w)
    /\ ((now w < deadline)%N ->
        attempts l < attempts l'
        /\ (now w' < deadline + cost (env (attempts l' - 1)%nat))%N
        /\ (now w + SLEEP_MS * N.of_nat (attempts l' - attempts l - 1)%nat
              + cost (env (attempts l' - 1)%nat) <= now w')%N).
Proof.
  induction fuel as [|fuel IH]; intros l w Hnone Hquiet Hfuel;
    rewrite wait_loop_S; destruct (N.ltb_spec (now w) deadline) as [Hlt|Hge].
  - lia.
  - exists l, w. repeat split; try done; lia.
  - destruct (round_no_match (env (attempts l)) conv l w) as (extra & -> & _).
    { specialize (Hquiet 0). by rewrite Nat.add_0_r in Hquiet. }
    simpl fst. simpl snd. cbv iota.
    pose proof (now_after_round (env (attempts l)) w) as Hnow.
    destruct (IH (mkLoop (reply_msg l) (S (attempts l)) (stray_msgs l ++ extra))
                 (after_round (env (attempts l)) w))
      as (l' & w' & Hrun & Hr & Hd & Hstop & Hgo).
    + done.
    + by apply never_appears_next.
    + unfold cost, SLEEP_MS in *. lia.
    + simpl attempts in *. exists l', w'. split; [done|]. split; [done|].
      split; [done|]. split; [lia|]. intros _.
      destruct (N.ltb_spec (now (after_round (env (attempts l)) w)) deadline)
        as [Hlt'|Hge'].
      * destruct (Hgo Hlt') as (Ha & Hb & Hc). split; [lia|]. split; [done|].
        replace (attempts l' - attempts l - 1) with (S (attempts l' - S (attempts l) - 1))
          by lia.
        unfold cost, SLEEP_MS in *. lia.
      * destruct (Hstop Hge') as [-> ->]. simpl attempts.
        replace (S (attempts l) - 1) with (attempts l) by lia.
        replace (S (attempts l) - attempts l - 1) with 0 by lia.
        split; [lia|]. unfold cost, SLEEP_MS in *. lia.
  - exists l, w. repeat split; try done; lia.
Qed.

(** *** Rounds in which nobody else is at work *)

Lemma pre_poll_idle e w :
  others e = [] -> analyst_up e = false -> broker_queues (pre_poll e w) = broker_queues w.
Proof.
  intros Ho Ha. unfold pre_poll, analyst_process_once, interfere.
  by rewrite Ha, Ho.
Qed.

Lemma after_round_mailbox e w :
  mailbox (broker_queues (after_round e w)) "Researcher" =
    if poll_up e then tail (mailbox (broker_queues (pre_poll e w)) "Researcher")
    else mailbox (broker_queues (pre_poll e w)) "Researcher".
Proof.
  unfold after_round, sleep, broker_poll. simpl.
  destruct (poll_up e); [|done].
  pose proof (poll_mailbox_eq "Researcher" (broker_queues (pre_poll e w))) as Ht.
  by destruct (Broker.broker_poll "Researcher" (broker_queues (pre_poll e w))).
Qed.

(** With the analyst down and no other agent sending, a mailbox free of
    the conversation stays free of it. *)
Lemma idle_never_appears env conv :
  (forall n, others (env n) = [] /\ analyst_up (env n) = false) ->
  forall k w,
    Forall (fun m => conv_id m <> conv) (mailbox (broker_queues w) "Researcher") ->
    never_appears env conv k w.
Proof.
  intros Hidle k w Hall n. revert k w Hall.
  induction n as [|n IH]; intros k w Hall; simpl.
  - destruct (Hidle (k + 0)) as [Ho Ha]. by rewrite pre_poll_idle.
  - rewrite Nat.add_succ_r. apply (IH (S k)).
    destruct (Hidle k) as [Ho Ha].
    rewrite after_round_mailbox, pre_poll_idle by done.
    destruct (poll_up (env k)); [|done].
    destruct (mailbox (broker_queues w) "Researcher"); [done|].
    by apply Forall_cons in Hall as [_ Hall].
Qed.

End FrontendFacts.

(** ** The driver's testable properties *)
Module FrontendSpec.
Import Broker BrokerFacts Frontend FrontendFacts Sample.

(** C2.  For an exchange with conversation id [conv]:
    (1) a reply the analyst step produces for a request of that
    conversation carries [conv];
    (2) in a pass of the loop whose poll returns an envelope [m], the pass
    ends in [break] with [m] as the reply if and only if [m] carries
    [conv]; an [m] of another conversation goes to the end of the stray
    list and the loop goes on;
    (3) the loop of an exchange ends (26 units of fuel or more all give
    the same end); the reply it ends with (if any) carries [conv], no stray
    does, and strays and reply together are all the envelopes the driver
    popped, in order: none is dropped. *)
Theorem correlation conv :
  (forall env st msg rest reply,
      mailbox (Analyst.queues st) "Analyst" = msg :: rest ->
      conv_id msg = conv ->
      fst (Analyst.pull_process_and_reply env st) = Analyst.ReplyEnqueued reply ->
      conv_id reply = conv)
  /\ (forall e l w m,
        fst (broker_poll e "Researcher" (pre_poll e w)) = StatusOk m ->
        (fst (fst (round e conv l w)) = true <-> conv_id m = conv)
        /\ (conv_id m = conv ->
            round e conv l w =
              (true, mkLoop (Some m) (S (attempts l)) (stray_msgs l),
               snd (broker_poll e "Researcher" (pre_poll e w))))
        /\ (conv_id m <> conv ->
            round e conv l w =
              (false,
               mkLoop (reply_msg l) (S (attempts l)) (stray_msgs l ++ [m]),
               after_round e w)))
  /\ (forall env w,
      exists l' w',
        (forall fuel, enough_fuel <= fuel ->
           wait_loop fuel env conv (now w + WAIT_MS) (mkLoop None 0 []) w
             = Some (l', w'))
        /\ (forall m, reply_msg l' = Some m -> conv_id m = conv)
        /\ Forall (fun m => conv_id m <> conv) (stray_msgs l')
        /\ stray_msgs l' ++ option_list (reply_msg l')
             = driver_polls enough_fuel env conv (now w + WAIT_MS) 0 w).
Proof.
  split; [|split].
  - intros env st msg rest reply Hq Hc Hout.
    destruct (AnalystFacts.pull_reply_inv env st reply Hout)
      as (msg' & ptr & doc & analysis & Hpoll & _ & _ & _ & -> & _).
    rewrite poll_resp, Hq in Hpoll. injection Hpoll as <-. done.
  - intros e l w m Hp. rewrite round_spec, Hp.
    destruct (String.eqb_spec (conv_id m) conv) as [Heq|Hne]; simpl.
    + split; [done|]. split; [done|]. intros Hne. by destruct Hne.
    + split; [split; [done | intros Heq; by destruct Hne]|].
      split; [intros Heq; by destruct Hne | done].
  - intros env w.
    destruct (wait_loop_total env conv (now w + WAIT_MS) 25 (mkLoop None 0 []) w)
      as [[l' w'] Hrun]; [unfold WAIT_MS, SLEEP_MS; lia|].
    exists l', w'.
    split; [intros fuel Hfuel; by apply (wait_loop_mono _ _ _ enough_fuel)|].
    destruct (wait_loop_keeps enough_fuel env conv _ (mkLoop None 0 []) w l' w'
                eq_refl Hrun) as [Hr (extra & Hs & Hall & Hp)].
    cbn [stray_msgs attempts app] in Hs, Hp. by rewrite Hs.
Qed.

Lemma correlation_witness :
  wait_loop enough_fuel (fun _ => promptRound) "conv-1" 25000 (mkLoop None 0 [])
    (mkWorld (send_all [reqR; strayS1] ∅) [] 0)
    = Some (mkLoop (Some (replyTo reqR)) 2 [strayS1],
            mkWorld (snd (poll_n 2 "Researcher"
                            (send_all [strayS1; replyTo reqR]
                               (snd (poll_n 2 "Analyst" (send_all [reqR] ∅))))))
              [reqR] 1000)
  /\ conv_id (replyTo reqR) = "conv-1"
  /\ Forall (fun m => conv_id m <> "conv-1") [strayS1].
Proof.
  assert (Hrun :
    wait_loop enough_fuel (fun _ => promptRound) "conv-1" 25000 (mkLoop None 0 [])
      (mkWorld (send_all [reqR; strayS1] ∅) [] 0)
      = Some (mkLoop (Some (replyTo reqR)) 2 [strayS1],
              mkWorld (snd (poll_n 2 "Researcher"
                              (send_all [strayS1; replyTo reqR]
                                 (snd (poll_n 2 "Analyst" (send_all [reqR] ∅))))))
                [reqR] 1000)) by (vm_compute; reflexivity).
  split; [exact Hrun|].
  destruct (proj2 (proj2 (correlation "conv-1")) (fun _ => promptRound)
              (mkWorld (send_all [reqR; strayS1] ∅) [] 0))
    as (l' & w' & Hend & Hr & Hs & _).
  specialize (Hend enough_fuel (le_n _)).
  change (now (mkWorld (send_all [reqR; strayS1] ∅) [] 0) + WAIT_MS)%N
    with 25000%N in Hend.
  rewrite Hrun in Hend. injection Hend as <- <-.
  split; [apply Hr; reflexivity | exact Hs].
Defined.

(** C5, as the code has it.  If no envelope of the conversation is ever in
    the driver's mailbox when it polls, the loop ends (26 units of fuel or
    more all give the same end) with no reply after at least one and at
    most 25 passes; the clock then reads at least the deadline, and less
    than the deadline plus the time of the last pass (its two calls and the
    one-second sleep), which is the deadline plus one polling interval when
    the two calls of that pass took no time.  The page is the no-reply page
    with the count of attempts and the first of the strays; the stray list
    holds every envelope the driver popped. *)
Theorem timeout_is_reached env conv w pointer send_resp :
  never_appears env conv 0 w ->
  exists l w',
    (forall fuel, enough_fuel <= fuel ->
       wait_loop fuel env conv (now w + WAIT_MS) (mkLoop None 0 []) w
         = Some (l, w'))
    /\ reply_msg l = None
    /\ 1 <= attempts l <= 25
    /\ (now w + WAIT_MS <= now w')%N
    /\ (now w' < now w + WAIT_MS + cost (env (attempts l - 1)%nat))%N
    /\ ((trigger_ms (env (attempts l - 1)%nat)
         + poll_ms (env (attempts l - 1)%nat) = 0)%N ->
        (now w' < now w + WAIT_MS + SLEEP_MS)%N)
    /\ stray_msgs l
         = driver_polls enough_fuel env conv (now w + WAIT_MS) 0 w
    /\ render pointer conv send_resp l
         = NoReply (mkStatus (attempts l) pointer send_resp)
             (head (stray_msgs l)).
Proof.
  intros Hquiet.
  destruct (quiet_run env conv (now w + WAIT_MS) 25 (mkLoop None 0 []) w)
    as (l & w' & Hrun & Hr & Hd & _ & Hgo); [done|done| |].
  { unfold WAIT_MS, SLEEP_MS. lia. }
  destruct Hgo as (Ha & Hb & Hc); [unfold WAIT_MS; lia|].
  simpl attempts in *.
  exists l, w'.
  split; [intros fuel Hfuel; by apply (wait_loop_mono _ _ _ enough_fuel)|].
  split; [done|].
  split; [unfold cost, WAIT_MS, SLEEP_MS in *; lia|].
  split; [done|]. split; [done|].
  split; [intros Hz; unfold cost in Hb; lia|].
  split.
  - destruct (wait_loop_keeps _ env conv _ (mkLoop None 0 []) w l w' eq_refl Hrun)
      as [_ (extra & Hs & _ & Hp)].
    rewrite Hr in Hp. cbn [option_list attempts] in Hp.
    rewrite app_nil_r in Hp. cbn [stray_msgs app] in Hs. by rewrite Hs, Hp.
  - unfold render. by rewrite Hr.
Qed.

Lemma timeout_is_reached_witness :
  exists l w',
    wait_loop enough_fuel (fun _ => slowRound) "conv-3"
      (now slowWorld + WAIT_MS) (mkLoop None 0 []) slowWorld = Some (l, w')
    /\ reply_msg l = None
    /\ 1 <= attempts l <= 25.
Proof.
  destruct (timeout_is_reached (fun _ => slowRound) "conv-3" slowWorld
              "ctx://note/42" (mkSendResp "enqueued" "Analyst" 1))
    as (l & w' & Hrun & Hr & Ha & _).
  - apply idle_never_appears; [by intros n|].
    repeat constructor; discriminate.
  - exists l, w'. split; [by apply Hrun|]. by split.
Defined.

(** C5 as worded fails when a call of the last pass takes time and when
    more than one stray was collected.  The analyst service is down and
    each call to it gives up after ten seconds; two replies of other
    conversations wait in the driver's mailbox.  No envelope of the
    conversation ever appears, and the loop ends eight seconds after the
    deadline, seven seconds after the deadline plus one polling interval.
    Both strays are in the stray list; the page shows the first only. *)
Lemma timeout_bound_counterexample :
  never_appears (fun _ => slowRound) "conv-3" 0 slowWorld
  /\ (fun r => (fst r, now (snd r)))
       <$> wait_loop enough_fuel (fun _ => slowRound) "conv-3"
             (now slowWorld + WAIT_MS) (mkLoop None 0 []) slowWorld
     = Some (mkLoop None 3 [strayS1; strayS2], 33000%N)
  /\ (now slowWorld + WAIT_MS + SLEEP_MS < 33000)%N
  /\ render "ctx://note/42" "conv-3" (mkSendResp "enqueued" "Analyst" 1)
       (mkLoop None 3 [strayS1; strayS2])
     = NoReply (mkStatus 3 "ctx://note/42" (mkSendResp "enqueued" "Analyst" 1))
         (Some strayS1).
Proof.
  split; [|split; [|split]].
  - apply idle_never_appears; [by intros n|].
    repeat constructor; discriminate.
  - vm_compute. reflexivity.
  - vm_compute. reflexivity.
  - reflexivity.
Qed.

End FrontendSpec.

(** ** The example scenarios, run *)
Module Scenarios.
Import Broker Sample.

(** An envelope sent is polled back as it was; the next poll is empty. *)
Example send_poll_poll :
  fst (serve [Send envA; Poll "A"; Poll "A"] ∅)
    = [Sent (mkSendResp "enqueued" "A" 1); Polled (PollOk envA); Polled PollEmpty].
Proof. reflexivity. Qed.

(** Two envelopes for one recipient come back in the order sent. *)
Example two_in_order :
  fst (serve [Send envA; Send envB; Size "A"; Poll "A"; Poll "A"] ∅)
    = [Sent (mkSendResp "enqueued" "A" 1); Sent (mkSendResp "enqueued" "A" 2);
       Sized (mkSizeResp "A" 2); Polled (PollOk envA); Polled (PollOk envB)].
Proof. reflexivity. Qed.

(** The analyst service is not there and each attempt to reach it takes
    ten seconds: the pipeline ends on the no-reply page, three attempts
    made, no stray seen. *)
Example analyst_down :
  fst <$> Frontend.run_pipeline Frontend.enough_fuel
            (Frontend.mkPipelineEnv (Some "ctx://note/42") "7" true
               (fun _ => slowRound))
            (Frontend.mkWorld ∅ [] 0)
    = Some (Frontend.NoReply
              (Frontend.mkStatus 3 "ctx://note/42"
                 (mkSendResp "enqueued" "Analyst" 1))
              None).
Proof. vm_compute. reflexivity. Qed.

(** With an analyst that runs the text of its handler and answers in the
    first pass, the pipeline shows its reply. *)
Example analyst_answers :
  fst <$> Frontend.run_pipeline Frontend.enough_fuel
            (Frontend.mkPipelineEnv (Some "ctx://note/42") "7" true
               (fun _ => promptRound))
            (Frontend.mkWorld ∅ [] 0)
    = Some (Frontend.ReplyReceived
              (Frontend.mkStatus 1 "ctx://note/42"
                 (mkSendResp "enqueued" "Analyst" 1))
              None "conv-7" (JStr "ctx://note/42")
              (replyTo (Frontend.request_msg "ctx://note/42" "conv-7"))
              (JStr Analyst.canned_response)).
Proof. vm_compute. reflexivity. Qed.

(** With an analyst that runs the text of its handler, an envelope without
    a pointer is ignored by the step; the driver that sent it sees no reply
    and runs into the deadline. *)
Example no_pointer_no_reply :
  fst (Analyst.pull_process_and_reply aenv
         (Analyst.mkState (send_all [noPtr] ∅) [])) = Analyst.Ignored
  /\ reply_of
       (Frontend.wait_loop Frontend.enough_fuel (fun _ => promptRound) "conv-8"
          25000 (Frontend.mkLoop None 0 [])
          (Frontend.mkWorld (send_all [noPtr] ∅) [] 0))
     = Some (None, 25).
Proof. split; vm_compute; reflexivity. Qed.

End Scenarios.


(** ** More on the broker: whole runs of requests *)
Module BrokerRuns.
Import Broker BrokerFacts Tally Sample.
Local Set Warnings "-clear-no-such-hyp".

Lemma serve_cons_fst rq rqs q :
  fst (serve (rq :: rqs) q)
    = fst (handle rq q) :: fst (serve rqs (snd (handle rq q))).
Proof. by rewrite serve_cons. Qed.

Lemma sent_to_cons a rq rqs :
  sent_to a (rq :: rqs) =
    match rq with
    | Send m => if String.eqb (receiver m) a then m :: sent_to a rqs
                else sent_to a rqs
    | _ => sent_to a rqs
    end.
Proof.
  unfold sent_to. simpl. destruct rq as [m|b|b]; try done.
  by destruct (String.eqb (receiver m) a).
Qed.

Lemma delivered_to_cons a rq r log :
  delivered_to a ((rq, r) :: log) =
    match rq, r with
    | Poll b, Polled (PollOk m) =>
        if String.eqb b a then m :: delivered_to a log else delivered_to a log
    | _, _ => delivered_to a log
    end.
Proof.
  unfold delivered_to. simpl. destruct rq as [m|b|b]; try done.
  destruct r as [r|[|m]|r]; try done. by destruct (String.eqb b a).
Qed.

(** X1.  Over any run of requests and for every agent, the envelopes
    delivered to the agent's polls followed by those still pending in its
    mailbox are the envelopes pending before the run followed by those sent
    to the agent during it, in the same order: nothing is lost, doubled or
    reordered. *)
Theorem run_conserves_envelopes rqs q a :
  delivered_to a (zip rqs (fst (serve rqs q)))
    ++ mailbox (snd (serve rqs q)) a
  = mailbox q a ++ sent_to a rqs.
Proof.
  revert q. induction rqs as [|rq rqs IH]; intros q.
  - simpl. by rewrite app_nil_r.
  - rewrite serve_cons_fst, serve_cons_snd, sent_to_cons.
    cbn [zip_with]. rewrite delivered_to_cons, handle_fst.
    destruct rq as [m|b|b].
    + rewrite IH. destruct (String.eqb_spec (receiver m) a) as [<-|Hne].
      * by rewrite handle_send_mailbox, <- app_assoc.
      * by rewrite handle_frame.
    + rewrite poll_resp. destruct (String.eqb_spec b a) as [->|Hne].
      * assert (Ht : mailbox (snd (handle (Poll a) q)) a = tail (mailbox q a))
          by (rewrite handle_snd; apply poll_mailbox_eq).
        destruct (mailbox q a) as [|m rest]; cbn [tail] in Ht.
        -- by rewrite IH, Ht.
        -- rewrite <- app_comm_cons. by rewrite IH, Ht.
      * assert (Hsame : mailbox (snd (handle (Poll b) q)) a = mailbox q a)
          by (by apply handle_frame).
        destruct (mailbox q b) as [|m rest]; by rewrite IH, Hsame.
    + by rewrite IH, handle_snd, size_mailbox.
Qed.

Lemma handle_well_routed rq q :
  well_routed q -> well_routed (snd (handle rq q)).
Proof.
  intros Hq k m Hm. destruct (decide (target rq = k)) as [<-|Hne].
  - destruct rq as [msg|b|b]; simpl target in *.
    + rewrite handle_send_mailbox in Hm.
      apply elem_of_app in Hm as [Hm|Hm]; [by apply Hq|].
      apply list_elem_of_singleton in Hm. by subst.
    + rewrite handle_snd, poll_mailbox_eq in Hm. apply Hq.
      destruct (mailbox q b) as [|m' rest]; [done|]. simpl in Hm.
      by apply list_elem_of_further.
    + rewrite handle_snd, size_mailbox in Hm. by apply Hq.
  - rewrite handle_frame in Hm by done. by apply Hq.
Qed.

(** X2.  From a store in which every pending envelope sits in its
    receiver's mailbox (the empty store is one), any run of requests leaves
    such a store, and every envelope a poll of agent [a] is answered with
    is addressed to [a]: no agent is handed another agent's envelope. *)
Theorem delivered_to_addressee rqs q :
  well_routed q ->
  well_routed (snd (serve rqs q))
  /\ (forall a m,
        m ∈ delivered_to a (zip rqs (fst (serve rqs q))) -> receiver m = a).
Proof.
  revert q. induction rqs as [|rq rqs IH]; intros q Hq.
  - split; [done|]. intros a m Hm. by apply elem_of_nil in Hm.
  - rewrite serve_cons_fst, serve_cons_snd.
    destruct (IH _ (handle_well_routed rq q Hq)) as [Hwr Hdel].
    split; [done|]. intros a m. cbn [zip_with].
    rewrite delivered_to_cons, handle_fst.
    destruct rq as [msg|b|b]; try apply Hdel.
    rewrite poll_resp. destruct (mailbox q b) as [|m' rest] eqn:Hb; [apply Hdel|].
    destruct (String.eqb_spec b a) as [->|Hne]; [|apply Hdel].
    intros Hm. apply elem_of_cons in Hm as [->|Hm]; [|by apply Hdel].
    apply Hq. rewrite Hb. by left.
Qed.

Lemma delivered_to_addressee_witness :
  delivered_to "A"
    (zip [Send envA; Send envY; Poll "R"; Poll "A"]
       (fst (serve [Send envA; Send envY; Poll "R"; Poll "A"] ∅))) = [envA]
  /\ receiver envA = "A".
Proof.
  split; [reflexivity|].
  refine (proj2 (delivered_to_addressee
                   [Send envA; Send envY; Poll "R"; Poll "A"] ∅ _) "A" envA _).
  - intros k m Hm. by apply elem_of_nil in Hm.
  - by left.
Defined.

(** X3.  [broker_size] changes no mailbox, and the size it reports for an
    agent is the number of polls that will return an envelope: that many
    polls return the pending envelopes in order and the next one returns
    [empty]. *)
Theorem size_counts_pending agent q :
  same_mailboxes (snd (broker_size agent q)) q
  /\ sz_size (fst (broker_size agent q)) = length (mailbox q agent)
  /\ fst (poll_n (S (sz_size (fst (broker_size agent q)))) agent
            (snd (broker_size agent q)))
       = map PollOk (mailbox q agent) ++ [PollEmpty].
Proof.
  split; [intros a; apply size_mailbox|]. split; [by rewrite size_resp|].
  rewrite poll_n_resp, size_mailbox, size_resp. cbn [sz_size].
  rewrite take_ge by lia.
  by replace (S (length (mailbox q agent)) - length (mailbox q agent)) with 1
    by lia.
Qed.

Lemma getitem_dom k (q : Queues) : dom (snd (getitem k q)) = dom q ∪ {[k]}.
Proof.
  unfold getitem. destruct (q !! k) eqn:Hk; simpl.
  - apply elem_of_dom_2 in Hk. set_solver.
  - rewrite dom_insert_L. set_solver.
Qed.

Lemma handle_dom rq q : dom (snd (handle rq q)) = dom q ∪ {[target rq]}.
Proof.
  rewrite handle_snd. destruct rq as [msg|b|b]; simpl target.
  - unfold broker_send. pose proof (getitem_dom (receiver msg) q) as Hd.
    destruct (getitem (receiver msg) q) as [d q1]. simpl in *.
    rewrite dom_insert_L, Hd. set_solver.
  - unfold broker_poll. pose proof (getitem_dom b q) as Hd.
    destruct (getitem b q) as [d q1]. simpl in *.
    destruct d; simpl; [done|]. rewrite dom_insert_L, Hd. set_solver.
  - unfold broker_size. pose proof (getitem_dom b q) as Hd.
    by destruct (getitem b q) as [d q1].
Qed.

(** X4.  The names bound in [QUEUES] after a run are those bound before
    and the target of every request of the run, sends, polls and size
    queries alike: no request removes a name, and a poll or a size query for
    a name never seen adds an entry to the dictionary. *)
Theorem names_only_grow rqs q :
  dom (snd (serve rqs q)) = dom q ∪ list_to_set (target <$> rqs)
  /\ (forall agent, q !! agent = None ->
        size (snd (broker_poll agent q)) = S (size q)
        /\ size (snd (broker_size agent q)) = S (size q)).
Proof.
  split.
  - revert q. induction rqs as [|rq rqs IH]; intros q.
    + simpl. set_solver.
    + rewrite serve_cons_snd, IH, handle_dom. simpl. set_solver.
  - intros agent Hn. unfold broker_poll, broker_size, getitem. rewrite Hn.
    simpl. by rewrite map_size_insert_None.
Qed.

End BrokerRuns.


(** ** The registry *)
Module RegistryFacts.
Import Registry Fixtures.

Lemma dict_get_set_eq k v s : dict_get k (dict_set k v s) = Some v.
Proof.
  induction s as [|[k' v'] s IH]; simpl.
  - by rewrite String.eqb_refl.
  - destruct (String.eqb k' k) eqn:E; simpl.
    + by rewrite String.eqb_refl.
    + by rewrite E.
Qed.

Lemma dict_get_set_ne k k' v s :
  k <> k' -> dict_get k' (dict_set k v s) = dict_get k' s.
Proof.
  intros Hne. induction s as [|[k0 v0] s IH]; simpl.
  - apply String.eqb_neq in Hne. by rewrite Hne.
  - destruct (String.eqb_spec k0 k) as [->|Hk]; simpl.
    + apply String.eqb_neq in Hne. by rewrite Hne.
    + by rewrite IH.
Qed.

Lemma dict_get_none k s : dict_get k s = None <-> k ∉ map fst s.
Proof.
  induction s as [|[k' v'] s IH]; simpl.
  - split; [intros _; apply not_elem_of_nil | done].
  - rewrite not_elem_of_cons. destruct (String.eqb_spec k' k) as [->|Hk].
    + split; [done | by intros [? _]].
    + rewrite IH. split; [by intros ? | by intros [_ ?]].
Qed.

Lemma dict_set_fresh k v s :
  dict_get k s = None -> dict_set k v s = s ++ [(k, v)].
Proof.
  induction s as [|[k' v'] s IH]; simpl; [done|].
  destruct (String.eqb k' k); [done|]. intros Hn. by rewrite IH.
Qed.

Lemma dict_set_keys k v s :
  is_Some (dict_get k s) -> map fst (dict_set k v s) = map fst s.
Proof.
  induction s as [|[k' v'] s IH]; simpl; [by intros [? ?]|].
  destruct (String.eqb_spec k' k) as [->|Hk]; simpl; [done|].
  intros Hs. by rewrite IH.
Qed.

(** X5.  A resource created with the right header is fetched back as it
    was stored: an authorised [mcp_create] answers with the pointer
    [ctx://note/<rid>] and the rid, an authorised [mcp_fetch] of that rid
    then returns the request's data and owner and its meta (empty when the
    request had none), and the fetch of any other rid answers as before the
    creation. *)
Theorem create_fetch_round_trip token uuid req auth auth' s :
  authorized token auth = true ->
  authorized token auth' = true ->
  fst (mcp_create token uuid req auth s)
    = inr (mkCreateResp ("ctx://note/" +:+ uuid) uuid)
  /\ mcp_fetch token uuid auth' (snd (mcp_create token uuid req auth s))
       = inr (mkFetchResp uuid (req_data req) (req_owner req)
                (default ∅ (req_meta req)))
  /\ (forall rid, uuid <> rid ->
        mcp_fetch token rid auth' (snd (mcp_create token uuid req auth s))
          = mcp_fetch token rid auth' s).
Proof.
  intros Ha Ha'. unfold mcp_create, mcp_fetch. rewrite Ha, Ha'. simpl.
  split; [done|]. split.
  - by rewrite dict_get_set_eq.
  - intros rid Hne. by rewrite dict_get_set_ne.
Qed.

Lemma create_fetch_round_trip_witness :
  mcp_fetch "teacher-secret" "u-1" bearer
    (snd (mcp_create "teacher-secret" "u-1" reqNote bearer []))
  = inr (mkFetchResp "u-1" "Q3 report" "Researcher" ∅).
Proof.
  apply (create_fetch_round_trip "teacher-secret" "u-1" reqNote bearer bearer []);
    reflexivity.
Defined.

Lemma bearer_longer token : "Bearer " +:+ token <> token.
Proof.
  intros H. apply (f_equal String.length) in H.
  unfold String.append in H. simpl in H. lia.
Qed.

(** X6.  The three handlers accept exactly the header [Bearer <token>]: no
    header, or the bare token, is refused.  A refused [mcp_create] answers
    401 and stores nothing; a refused [mcp_fetch] answers 401 whether or not
    the rid is stored, so it tells the caller nothing about the store; a
    refused [mcp_list] answers 401. *)
Theorem unauthorized_is_refused token auth :
  (authorized token auth = true <-> auth = Some ("Bearer " +:+ token))
  /\ authorized token None = false
  /\ authorized token (Some token) = false
  /\ (authorized token auth = false ->
      (forall uuid req s,
          mcp_create token uuid req auth s
            = (inl (mkHTTPException 401 "Unauthorized MCP create"), s))
      /\ (forall rid s,
            mcp_fetch token rid auth s
              = inl (mkHTTPException 401 "Unauthorized MCP fetch"))
      /\ (forall s,
            mcp_list token auth s
              = inl (mkHTTPException 401 "Unauthorized MCP list"))).
Proof.
  split; [|split; [done|split]].
  - destruct auth as [a|]; simpl; [|done].
    rewrite String.eqb_eq. split; [by intros -> | by intros [= ->]].
  - simpl. apply String.eqb_neq. intros H. by apply (bearer_longer token).
  - intros Hno. unfold mcp_create, mcp_fetch, mcp_list. by rewrite Hno.
Qed.

Lemma unauthorized_is_refused_witness :
  mcp_fetch "teacher-secret" "u-1" (Some "teacher-secret")
    (snd (mcp_create "teacher-secret" "u-1" reqNote bearer []))
  = inl (mkHTTPException 401 "Unauthorized MCP fetch").
Proof.
  apply (proj2 (proj2 (proj2
           (unauthorized_is_refused "teacher-secret" (Some "teacher-secret"))))).
  reflexivity.
Defined.

(** X7.  [mcp_list] shows one entry per stored resource, in the order of
    creation and without the data.  Creating under a rid not yet stored adds
    its entry at the end and keeps the rids distinct; creating under a rid
    already stored overwrites that resource where it stands, the listing
    keeping its length and its rids. *)
Theorem list_follows_creation token uuid req auth auth' s :
  authorized token auth = true ->
  authorized token auth' = true ->
  NoDup (map fst s) ->
  exists before after,
    mcp_list token auth' s = inr before
    /\ mcp_list token auth' (snd (mcp_create token uuid req auth s)) = inr after
    /\ map le_rid before = map fst s
    /\ NoDup (map le_rid after)
    /\ (dict_get uuid s = None ->
        after = before
                ++ [mkListEntry uuid (req_owner req) (default ∅ (req_meta req))])
    /\ (is_Some (dict_get uuid s) ->
        map le_rid after = map le_rid before
        /\ mcp_fetch token uuid auth' (snd (mcp_create token uuid req auth s))
             = inr (mkFetchResp uuid (req_data req) (req_owner req)
                      (default ∅ (req_meta req)))).
Proof.
  intros Ha Ha' Hnd. unfold mcp_list, mcp_create, mcp_fetch.
  rewrite Ha, Ha'. simpl. eexists _, _. split; [done|]. split; [done|].
  assert (Hrid : forall t : Store,
             map le_rid (map (fun kv => mkListEntry (fst kv) (owner (snd kv))
                                          (meta (snd kv))) t) = map fst t).
  { intros t. rewrite map_map. by apply map_ext. }
  rewrite !Hrid. split; [done|].
  destruct (dict_get uuid s) as [v|] eqn:Hg.
  - rewrite dict_set_keys by eauto. split; [done|].
    split; [done|]. intros _. split; [done|]. by rewrite dict_get_set_eq.
  - rewrite dict_set_fresh by done. rewrite !map_app. simpl.
    split; [|split; [done | by intros [? ?]]].
    apply NoDup_app. split; [done|]. split; [|apply NoDup_singleton].
    intros k Hk Hk'. apply list_elem_of_singleton in Hk'. subst k.
    by apply dict_get_none in Hg.
Qed.

Lemma list_follows_creation_witness :
  mcp_list "teacher-secret" bearer
    (snd (mcp_create "teacher-secret" "u-2" reqMemo bearer
            (snd (mcp_create "teacher-secret" "u-1" reqNote bearer []))))
  = inr [mkListEntry "u-1" "Researcher" ∅;
         mkListEntry "u-2" "Analyst" {[ "kind" := JStr "memo" ]}].
Proof.
  assert (Hnd : NoDup (map fst (snd (mcp_create "teacher-secret" "u-1" reqNote
                                       bearer [])))).
  { repeat constructor. by intros H%elem_of_nil. }
  destruct (list_follows_creation "teacher-secret" "u-2" reqMemo bearer bearer
              (snd (mcp_create "teacher-secret" "u-1" reqNote bearer []))
              eq_refl eq_refl Hnd)
    as (before & after & Hb & Ha & _ & _ & Hfresh & _).
  rewrite Ha. injection Hb as <-. by rewrite Hfresh.
Defined.

End RegistryFacts.


(** ** The resource id the analyst reads off a pointer *)
Module AnalystExtra.
Import Analyst Registry.

(** *** The resource id of a pointer *)

Lemma append_nil_l s : EmptyString +:+ s = s.
Proof. reflexivity. Qed.

Lemma append_cons c a s : String c a +:+ s = String c (a +:+ s).
Proof. reflexivity. Qed.

Lemma append_nil_r s : s +:+ EmptyString = s.
Proof.
  induction s as [|c s IH]; [done|]. by rewrite append_cons, IH.
Qed.

Lemma append_snoc acc c s :
  (acc +:+ String c EmptyString) +:+ s = acc +:+ String c s.
Proof.
  induction acc as [|c' acc IH]; [done|]. by rewrite !append_cons, IH.
Qed.

Lemma has_slash_app a b : has_slash (a +:+ b) = has_slash a || has_slash b.
Proof.
  induction a as [|c a IH]; [done|].
  rewrite append_cons. simpl. by rewrite IH, orb_assoc.
Qed.

Lemma last_segment_no_slash s : forall acc,
  has_slash s = false -> last_segment acc s = acc +:+ s.
Proof.
  induction s as [|c s IH]; intros acc Hs; simpl in *.
  - by rewrite append_nil_r.
  - apply orb_false_iff in Hs as [Hc Hs]. rewrite Hc, IH by done.
    apply append_snoc.
Qed.

Lemma last_segment_after_slash p r : forall acc,
  last_segment acc (p +:+ String "/" r) = last_segment EmptyString r.
Proof.
  induction p as [|c p IH]; intros acc.
  - by rewrite append_nil_l.
  - rewrite append_cons. simpl. destruct (Ascii.eqb c "/"); apply IH.
Qed.

Lemma last_segment_has_no_slash s : forall acc,
  has_slash acc = false -> has_slash (last_segment acc s) = false.
Proof.
  induction s as [|c s IH]; intros acc Hacc; simpl; [done|].
  destruct (Ascii.eqb c "/") eqn:Hc; apply IH; [done|].
  rewrite has_slash_app, Hacc. simpl. by rewrite Hc.
Qed.

(** X8.  The resource id [mcp_get] takes from a pointer,
    [pointer.split("/")[-1]], is what follows the last slash: it never
    contains a slash, it is the whole pointer when the pointer has none, and
    for a pointer that ends in a slash followed by a text without one it is
    that text. *)
Theorem last_segment_is_after_last_slash :
  (forall s, has_slash (last_segment EmptyString s) = false)
  /\ (forall s, has_slash s = false -> last_segment EmptyString s = s)
  /\ (forall p r, has_slash r = false ->
        last_segment EmptyString (p +:+ String "/" r) = r).
Proof.
  split; [|split].
  - intros s. by apply last_segment_has_no_slash.
  - intros s Hs. by rewrite last_segment_no_slash.
  - intros p r Hr. by rewrite last_segment_after_slash, last_segment_no_slash.
Qed.

Lemma last_segment_is_after_last_slash_witness :
  last_segment EmptyString "ctx://note/9f1c" = "9f1c".
Proof.
  apply (proj2 (proj2 last_segment_is_after_last_slash) "ctx://note" "9f1c").
  reflexivity.
Defined.

End AnalystExtra.


(** ** The researcher *)
Module ResearcherFacts.
Import Broker BrokerFacts Researcher Cases.

Lemma pull_reply_spec env w :
  poll_reachable env = true ->
  snd (pull_reply_from_broker env w)
    = mkWorld (store w) (snd (broker_poll "Researcher" (queues w)))
        (INBOX w ++ take 1 (mailbox (queues w) "Researcher"))
  /\ fst (pull_reply_from_broker env w) = None.
Proof.
  intros Hup. unfold pull_reply_from_broker. rewrite Hup.
  pose proof (poll_resp "Researcher" (queues w)) as Hr.
  destruct (broker_poll "Researcher" (queues w)) as [data q]. simpl in *.
  destruct (mailbox (queues w) "Researcher") as [|m rest]; subst data; simpl.
  - by rewrite app_nil_r.
  - done.
Qed.

(** X15.  [pull_reply_from_broker] moves envelopes from the Researcher's
    mailbox to the end of [INBOX] one at a time and in order: after [n]
    calls [INBOX] has grown by the first [n] pending envelopes (all of them
    when fewer were pending) and the mailbox holds the rest; the registry
    and the other mailboxes are untouched. *)
Theorem pulls_move_replies_in_order n env w :
  poll_reachable env = true ->
  INBOX (pull_n n env w)
    = INBOX w ++ take n (mailbox (queues w) "Researcher")
  /\ mailbox (queues (pull_n n env w)) "Researcher"
     = drop n (mailbox (queues w) "Researcher")
  /\ store (pull_n n env w) = store w
  /\ (forall a, "Researcher" <> a ->
        mailbox (queues (pull_n n env w)) a = mailbox (queues w) a).
Proof.
  intros Hup. revert w. induction n as [|n IH]; intros w.
  - simpl. rewrite app_nil_r, drop_0. by repeat split.
  - simpl pull_n. destruct (pull_reply_spec env w Hup) as [-> _].
    destruct (IH (mkWorld (store w) (snd (broker_poll "Researcher" (queues w)))
                    (INBOX w ++ take 1 (mailbox (queues w) "Researcher"))))
      as (Hi & Hm & Hs & Ho).
    simpl in Hi, Hm, Hs, Ho. rewrite Hi, Hm, Hs, poll_mailbox_eq.
    split; [|split; [|split; [done|]]].
    + rewrite <- app_assoc.
      destruct (mailbox (queues w) "Researcher"); simpl; by rewrite ?take_nil.
    + destruct (mailbox (queues w) "Researcher"); simpl; by rewrite ?drop_nil.
    + intros a Hne. rewrite Ho by done. by apply poll_mailbox_ne.
Qed.

Lemma pulls_move_replies_in_order_witness :
  INBOX (pull_n 3 renv (mkWorld [] (send_all [Sample.strayS1; Sample.strayS2] ∅) []))
    = [Sample.strayS1; Sample.strayS2].
Proof.
  destruct (pulls_move_replies_in_order 3 renv
              (mkWorld [] (send_all [Sample.strayS1; Sample.strayS2] ∅) [])
              eq_refl) as [Hi _].
  rewrite Hi. reflexivity.
Defined.

Lemma mcp_put_spec env data owner meta s :
  mcp_put env data owner meta s =
    if mcp_reachable env
       && Registry.authorized (registry_token env)
            (wire env ("Bearer " +:+ REGISTRY_TOKEN env))
    then (Some ("ctx://note/" +:+ registry_uuid env),
          Registry.dict_set (registry_uuid env)
            (Registry.mkResource data owner (default ∅ meta)) s)
    else (None, s).
Proof.
  unfold mcp_put, Registry.mcp_create.
  destruct (mcp_reachable env); [|done]. simpl andb.
  by destruct (Registry.authorized _ _).
Qed.

(** X16.  [produce_note_and_enqueue] stores first and sends second.  The
    registry accepts the request when the header [Bearer <REGISTRY_TOKEN>]
    of this service, as it arrives at the registry, is the header the
    registry expects.  With the registry reached and the header accepted,
    and the broker reachable, the note is stored under the registry's new
    rid and an envelope from Researcher with the pointer [ctx://note/<rid>]
    and the conversation id [conv-001], the same id for every note, is
    appended to the Analyst's mailbox.  With the registry not reached or
    the header refused the call raises and changes nothing.  With the broker
    not reached it raises after the note is stored: the note stays in the
    registry and no envelope points to it. *)
Theorem produce_stores_then_sends env w :
  let stored :=
    Registry.dict_set (registry_uuid env)
      (Registry.mkResource note "Researcher" note_meta) (store w) in
  let msg := note_msg ("ctx://note/" +:+ registry_uuid env) in
  let accepted :=
    mcp_reachable env
    && Registry.authorized (registry_token env)
         (wire env ("Bearer " +:+ REGISTRY_TOKEN env)) in
  (accepted = false ->
   produce_note_and_enqueue env w = (ProduceRaised StoreFailed, w))
  /\ (accepted = true ->
      (send_reachable env = false ->
       produce_note_and_enqueue env w
         = (ProduceRaised SendFailed, mkWorld stored (queues w) (INBOX w)))
      /\ (send_reachable env = true ->
          fst (produce_note_and_enqueue env w)
            = Enqueued msg
                (mkSendResp "enqueued" "Analyst"
                   (S (length (mailbox (queues w) "Analyst"))))
          /\ store (snd (produce_note_and_enqueue env w)) = stored
          /\ INBOX (snd (produce_note_and_enqueue env w)) = INBOX w
          /\ mailbox (queues (snd (produce_note_and_enqueue env w))) "Analyst"
               = mailbox (queues w) "Analyst" ++ [msg]
          /\ (forall a, "Analyst" <> a ->
                mailbox (queues (snd (produce_note_and_enqueue env w))) a
                  = mailbox (queues w) a)
          /\ conv_id msg = "conv-001" /\ sender msg = "Researcher")).
Proof.
  cbv zeta. unfold produce_note_and_enqueue. rewrite mcp_put_spec. simpl default.
  split.
  - intros ->. by destruct w.
  - intros ->. split.
    + by intros ->.
    + intros ->.
      pose proof (send_resp (note_msg ("ctx://note/" +:+ registry_uuid env))
                    (queues w)) as Hr.
      pose proof (send_mailbox_eq (note_msg ("ctx://note/" +:+ registry_uuid env))
                    (queues w)) as Hm.
      pose proof (send_mailbox_ne (note_msg ("ctx://note/" +:+ registry_uuid env))
                    (queues w)) as Hn.
      destruct (broker_send _ (queues w)) as [r q]. simpl in *.
      rewrite Hr, Hm. repeat split. intros a Hne. by apply Hn.
Qed.

(** A token the registry does not know is refused; the registry's own token
    is accepted, and so is that token followed by a blank, the blank being
    gone when the header arrives. *)
Lemma produce_stores_then_sends_witness :
  produce_note_and_enqueue badTokenEnv (mkWorld [] ∅ [])
    = (ProduceRaised StoreFailed, mkWorld [] ∅ [])
  /\ mailbox (queues (snd (produce_note_and_enqueue renv (mkWorld [] ∅ []))))
       "Analyst" = [note_msg "ctx://note/9f1c"]
  /\ mailbox (queues (snd (produce_note_and_enqueue blankEnv (mkWorld [] ∅ []))))
       "Analyst" = [note_msg "ctx://note/9f1c"].
Proof.
  split; [|split].
  - apply (proj1 (produce_stores_then_sends badTokenEnv (mkWorld [] ∅ []))).
    reflexivity.
  - destruct (proj2 (produce_stores_then_sends renv (mkWorld [] ∅ [])) eq_refl)
      as [_ Hok].
    destruct (Hok eq_refl) as (_ & _ & _ & Hm & _). exact Hm.
  - destruct (proj2 (produce_stores_then_sends blankEnv (mkWorld [] ∅ []))
                eq_refl) as [_ Hok].
    destruct (Hok eq_refl) as (_ & _ & _ & Hm & _). exact Hm.
Defined.

End ResearcherFacts.




(** ** More on the waiting loop *)
Module FrontendExtra.
Import Broker BrokerFacts Frontend FrontendFacts Cases.

(** What a finished run of the loop has used: passes, time, and room in
    the stray list. *)
Lemma loop_budget env conv deadline : forall fuel l w l' w',
  wait_loop fuel env conv deadline l w = Some (l', w') ->
  attempts l <= attempts l'
  /\ ((now w < deadline)%N -> attempts l < attempts l')
  /\ (attempts l < attempts l' ->
      (now w + SLEEP_MS * N.of_nat (attempts l' - attempts l - 1) < deadline)%N)
  /\ length (stray_msgs l') + length (option_list (reply_msg l'))
     <= length (stray_msgs l) + length (option_list (reply_msg l))
        + (attempts l' - attempts l).
Proof.
  induction fuel as [|fuel IH]; intros l w l' w' Hrun; [done|].
  rewrite wait_loop_S in Hrun.
  destruct (N.ltb_spec (now w) deadline) as [Hlt|Hge].
  2:{ injection Hrun as <- <-. repeat split; lia. }
  rewrite round_spec in Hrun.
  pose proof (now_after_round (env (attempts l)) w) as Hnow.
  assert (Hcont : forall l1,
            attempts l1 = S (attempts l) ->
            length (stray_msgs l1) + length (option_list (reply_msg l1))
              <= length (stray_msgs l) + length (option_list (reply_msg l)) + 1 ->
            wait_loop fuel env conv deadline l1
              (after_round (env (attempts l)) w) = Some (l', w') ->
            attempts l <= attempts l'
            /\ ((now w < deadline)%N -> attempts l < attempts l')
            /\ (attempts l < attempts l' ->
                (now w + SLEEP_MS * N.of_nat (attempts l' - attempts l - 1)
                 < deadline)%N)
            /\ length (stray_msgs l') + length (option_list (reply_msg l'))
               <= length (stray_msgs l) + length (option_list (reply_msg l))
                  + (attempts l' - attempts l)).
  { intros l1 Ha Hlen Hrest.
    destruct (IH _ _ _ _ Hrest) as (H1 & H2 & H3 & H4).
    rewrite Ha in *. split; [lia|]. split; [lia|]. split; [|lia].
    intros _. destruct (decide (attempts l' = S (attempts l))) as [->|Hmore].
    - replace (S (attempts l) - attempts l - 1) with 0 by lia. lia.
    - assert (Hgo : S (attempts l) < attempts l') by lia.
      specialize (H3 Hgo).
      replace (attempts l' - attempts l - 1)
        with (S (attempts l' - S (attempts l) - 1)) by lia.
      unfold cost, SLEEP_MS in *. lia. }
  destruct (fst (broker_poll (env (attempts l)) "Researcher"
                   (pre_poll (env (attempts l)) w))) as [m| |].
  - destruct (String.eqb (conv_id m) conv); cbn [fst snd] in Hrun.
    + injection Hrun as <- <-. simpl.
      replace (S (attempts l) - attempts l - 1) with 0 by lia.
      repeat split; lia.
    + eapply Hcont; [| |exact Hrun]; simpl; [done|].
      rewrite length_app. simpl. lia.
  - cbn [fst snd] in Hrun. eapply Hcont; [| |exact Hrun]; simpl; [done|lia].
  - cbn [fst snd] in Hrun. eapply Hcont; [| |exact Hrun]; simpl; [done|lia].
Qed.

(** X19.  Whatever the analyst, the broker and the other agents do, one
    exchange costs the driver at least one and at most 25 passes through the
    loop, each with one trigger of the analyst and one poll, and the loop
    ends; the strays it holds and the reply it accepted are together no more
    than the passes made. *)
Theorem loop_is_bounded env conv w :
  exists l' w',
    (forall fuel, enough_fuel <= fuel ->
       wait_loop fuel env conv (now w + WAIT_MS) (mkLoop None 0 []) w
         = Some (l', w'))
    /\ 1 <= attempts l' <= 25
    /\ length (stray_msgs l') + length (option_list (reply_msg l'))
       <= attempts l'.
Proof.
  destruct (wait_loop_total env conv (now w + WAIT_MS) 25 (mkLoop None 0 []) w)
    as [[l' w'] Hrun]; [unfold WAIT_MS, SLEEP_MS; lia|].
  exists l', w'.
  split; [intros fuel Hfuel; by apply (wait_loop_mono _ _ _ enough_fuel)|].
  destruct (loop_budget _ _ _ _ _ _ _ _ Hrun) as (_ & H2 & H3 & H4).
  simpl in H2, H3, H4.
  assert (Hpos : 0 < attempts l') by (apply H2; unfold WAIT_MS; lia).
  specialize (H3 Hpos). unfold WAIT_MS, SLEEP_MS in H3. lia.
Qed.

(** *** The driver with no analyst *)





End FrontendExtra.
